(** * Hierarchical memory: importance-routed layers with score-based eviction

    A shallow embedding of the notebook classes [MemoryEntry], [MemoryLayer]
    and [HierarchicalMemory] (section 2.1, "Memory Architecture"), and the
    properties of their admission and eviction policy.

    - Python [float] is IEEE-754 binary64, modelled by [spec_float] with
      precision 53 and maximal exponent 1024; Python [int] is [Z].
    - A method is a function from the receiver's state to an outcome and the
      receiver's state afterwards.  An exception keeps whatever mutation was
      done before it was raised, as in Python.
    - [datetime.now()] is an input of the call that reads the clock. *)

From Stdlib Require Import ZArith List Bool Lia Permutation Sorted.
From Stdlib Require Import Floats.SpecFloat.
From Stdlib Require Strings.String.
Import ListNotations.
Import String.StringSyntax.
Delimit Scope string_scope with string.
Local Open Scope Z_scope.

(* ================================================================== *)
(** ** Exceptions and calls *)

(** The built-in exceptions the modelled statements can raise:
    [list.pop] on an empty list, and the conversion of an [int] that is too
    large for a [float]. *)
Inductive exn : Type :=
| IndexError
| OverflowError.

(** Outcome of a call: the exception raised, or the value returned. *)
Definition result (A : Type) : Type := (exn + A)%type.

(** A call on a receiver of state [S]. *)
Definition M (S A : Type) : Type := S -> result A * S.

Definition ret {S A : Type} (a : A) : M S A :=
  fun s => (inr a, s).

Definition bind {S A B : Type} (m : M S A) (f : A -> M S B) : M S B :=
  fun s =>
    match m s with
    | (inl e, s') => (inl e, s')
    | (inr a, s') => f a s'
    end.

Definition get {S : Type} : M S S :=
  fun s => (inr s, s).

(** A call that does not touch the receiver (a constructor call). *)
Definition lift {S A : Type} (r : result A) : M S A :=
  fun s => (r, s).

Declare Scope py_scope.
Delimit Scope py_scope with py.
Notation "x <- m ;; k" := (bind m (fun x => k))
  (at level 61, m at next level, right associativity) : py_scope.
Notation "m ;;; k" := (bind m (fun _ => k))
  (at level 61, right associativity) : py_scope.
Local Open Scope py_scope.

(** The state a call leaves behind, whether it returned or raised. *)
Definition exec {S A : Type} (m : M S A) (s : S) : S := snd (m s).

(* ================================================================== *)
(** ** Python floats *)

Module PyFloat.

Definition prec : Z := 53.
Definition emax : Z := 1024.

Definition float : Type := spec_float.

Definition nan : float := S754_nan.
Definition inf : float := S754_infinity false.
Definition neg_inf : float := S754_infinity true.

(** [x * y] on floats. *)
Definition mul (x y : float) : float := SFmul prec emax x y.

(** [x < y], [x > y], [x <= y], [x == y]; all false when an operand is NaN. *)
Definition ltb (x y : float) : bool := SFltb x y.
Definition gtb (x y : float) : bool := SFltb y x.
Definition leb (x y : float) : bool := SFleb x y.
Definition eqb (x y : float) : bool := SFeqb x y.

Definition is_nan (x : float) : bool :=
  match x with S754_nan => true | _ => false end.

Definition is_zero (x : float) : bool :=
  match x with S754_zero _ => true | _ => false end.

(** [math.isfinite]. *)
Definition is_finite (x : float) : bool :=
  match x with S754_zero _ | S754_finite _ _ _ => true | _ => false end.

(** The implicit conversion of an [int] operand: round to nearest, ties to
    even; [OverflowError] when the rounded value would not be finite. *)
Definition of_int (n : Z) : result float :=
  match binary_normalize prec emax n 0 false with
  | S754_infinity _ => inl OverflowError
  | f => inr f
  end.

(** The binary64 value closest to the fraction [n / d], which is what a
    decimal literal denotes. *)
Definition fraction (n d : Z) : float :=
  SFdiv prec emax (binary_normalize prec emax n 0 false)
                  (binary_normalize prec emax d 0 false).

(** The literals of the source and of the examples. *)
Definition lit_0_8 : float := S754_finite false 7205759403792794 (-53).
Definition lit_0_5 : float := S754_finite false 4503599627370496 (-53).
Definition lit_0_81 : float := S754_finite false 7295831396340204 (-53).
Definition lit_0_9 : float := S754_finite false 8106479329266893 (-53).
Definition lit_0_2 : float := S754_finite false 7205759403792794 (-55).
Definition lit_0_1 : float := S754_finite false 7205759403792794 (-56).
Definition lit_1_0 : float := S754_finite false 4503599627370496 (-52).

End PyFloat.

Abbreviation float := PyFloat.float.

(* ================================================================== *)
(** ** Python lists *)

(** [len(l) >= n]. *)
Definition len_ge {A : Type} (l : list A) (n : Z) : bool :=
  Z.of_nat (length l) >=? n.

(** [l.append(x)]. *)
Definition list_append {A : Type} (x : A) : M (list A) unit :=
  fun l => (inr tt, l ++ [x]).

(** [l.pop(0)]: removes and returns the first element. *)
Definition list_pop0 {A : Type} : M (list A) A :=
  fun l =>
    match l with
    | [] => (inl IndexError, [])
    | x :: t => (inr x, t)
    end.

(** [list.sort] is a stable sort that compares with [<] only.  When [<]
    orders the keys weakly (being "not below" is transitive, as it is among
    floats without NaN), that fixes the outcome: there is one stably sorted
    arrangement ([stably_sorted_unique] below), and the insertion sort
    [stable_sort] computes it.  With NaN among unequal keys the outcome of
    [list.sort] depends on how the sort is implemented, and [stable_sort]
    need not agree with it; the statements about sorted outcomes below are
    for weakly ordered keys.  The one other case used below is a list in
    which no element is strictly below the one just before it ([no_descent]):
    [list.sort] finds it to be a single ascending run and returns it as it
    is, and so does [stable_sort] ([stable_sort_no_descent]).

    [insert_sorted x s] puts [x] in front of the first element that is not
    strictly below it, so that [x], which preceded the elements of [s],
    stays in front of the ones it ties with. *)
Fixpoint insert_sorted {B : Type} (kf : B -> float) (x : B) (s : list B) : list B :=
  match s with
  | [] => [x]
  | y :: t =>
      if PyFloat.ltb (kf y) (kf x) then y :: insert_sorted kf x t
      else x :: y :: t
  end.

Fixpoint stable_sort {B : Type} (kf : B -> float) (l : list B) : list B :=
  match l with
  | [] => []
  | x :: t => insert_sorted kf x (stable_sort kf t)
  end.

(** Two elements tie: neither key is strictly below the other. *)
Definition tieb {B : Type} (kf : B -> float) (x y : B) : bool :=
  negb (PyFloat.ltb (kf x) (kf y)) && negb (PyFloat.ltb (kf y) (kf x)).

(** What Python promises of [list.sort]: [l'] holds the elements of [l] with
    no element strictly below an earlier one, and the elements that tie are
    in the order they had in [l]. *)
Definition stably_sorted {B : Type} (kf : B -> float) (l l' : list B) : Prop :=
  Permutation l l' /\
  StronglySorted (fun x y => PyFloat.ltb (kf y) (kf x) = false) l' /\
  forall x, In x l -> filter (tieb kf x) l' = filter (tieb kf x) l.

(** The keys of all elements, computed from left to right before anything is
    moved; the first exception aborts. *)
Fixpoint keys_of {A : Type} (key : A -> result float) (l : list A)
  : result (list float) :=
  match l with
  | [] => inr []
  | x :: t =>
      match key x with
      | inl e => inl e
      | inr k =>
          match keys_of key t with
          | inl e => inl e
          | inr ks => inr (k :: ks)
          end
      end
  end.

(** [l.sort(key=key)]: the elements are paired with their keys, the pairs are
    sorted by key, and the elements are written back.  When a key raises, the
    list is left as it was. *)
Definition list_sort {A : Type} (key : A -> result float) : M (list A) unit :=
  fun l =>
    match keys_of key l with
    | inl e => (inl e, l)
    | inr ks => (inr tt, map snd (stable_sort fst (combine ks l)))
    end.

(* ================================================================== *)
(** ** MemoryEntry *)

Definition datetime : Type := Z.

Record MemoryEntry (Content : Type) : Type := mkEntry {
  content : Content;
  importance : float;
  timestamp : datetime;
  access_count : Z
}.

Arguments mkEntry {Content} _ _ _ _.
Arguments content {Content} _.
Arguments importance {Content} _.
Arguments timestamp {Content} _.
Arguments access_count {Content} _.

(** [MemoryEntry(content, importance)], with [now] the clock reading. *)
Definition MemoryEntry_init {Content : Type}
  (content : Content) (importance : float) (now : datetime)
  : result (MemoryEntry Content) :=
  inr {| content := content;
         importance := importance;
         timestamp := now;
         access_count := 0 |}.

(** [lambda x: x.importance * x.access_count]. *)
Definition score {Content : Type} (x : MemoryEntry Content) : result float :=
  match PyFloat.of_int (access_count x) with
  | inl e => inl e
  | inr c => inr (PyFloat.mul (importance x) c)
  end.

(* ================================================================== *)
(** ** MemoryLayer *)

Record MemoryLayer (Content : Type) : Type := mkLayer {
  capacity : Z;
  memories : list (MemoryEntry Content)
}.

Arguments mkLayer {Content} _ _.
Arguments capacity {Content} _.
Arguments memories {Content} _.

(** [MemoryLayer(capacity)]. *)
Definition MemoryLayer_init {Content : Type} (capacity : Z)
  : result (MemoryLayer Content) :=
  inr {| capacity := capacity; memories := [] |}.

(** A call on the list object held in [self.memories]. *)
Definition on_memories {Content A : Type}
  (m : M (list (MemoryEntry Content)) A) : M (MemoryLayer Content) A :=
  fun self =>
    let (r, l) := m (memories self) in
    (r, {| capacity := capacity self; memories := l |}).

(** [MemoryLayer._evict]: sorts the list, pops its first element and drops
    it; there is no [return], so the call returns [None]. *)
Definition _evict {Content : Type}
  : M (MemoryLayer Content) (option (MemoryEntry Content)) :=
  on_memories (list_sort score) ;;;
  _popped <- on_memories list_pop0 ;;
  ret None.

(** [MemoryLayer.add]. *)
Definition add {Content : Type} (entry : MemoryEntry Content)
  : M (MemoryLayer Content) unit :=
  self <- get ;;
  (if len_ge (memories self) (capacity self)
   then _evict ;;; ret tt
   else ret tt) ;;;
  on_memories (list_append entry).

(** Accessors used in the statements. *)
Definition size {Content : Type} (self : MemoryLayer Content) : Z :=
  Z.of_nat (length (memories self)).

(* ================================================================== *)
(** ** HierarchicalMemory *)

Record HierarchicalMemory (Content : Type) : Type := mkMemory {
  working_memory : MemoryLayer Content;
  short_term : MemoryLayer Content;
  long_term : MemoryLayer Content
}.

Arguments mkMemory {Content} _ _ _.
Arguments working_memory {Content} _.
Arguments short_term {Content} _.
Arguments long_term {Content} _.

(** [HierarchicalMemory()]. *)
Definition HierarchicalMemory_init {Content : Type}
  : result (HierarchicalMemory Content) :=
  match MemoryLayer_init 5 with
  | inl e => inl e
  | inr w =>
      match MemoryLayer_init 50 with
      | inl e => inl e
      | inr s =>
          match MemoryLayer_init 1000 with
          | inl e => inl e
          | inr l =>
              inr {| working_memory := w; short_term := s; long_term := l |}
          end
      end
  end.

(** Calls on the layer held in each attribute. *)
Definition on_working_memory {Content A : Type}
  (m : M (MemoryLayer Content) A) : M (HierarchicalMemory Content) A :=
  fun self =>
    let (r, w) := m (working_memory self) in
    (r, {| working_memory := w;
           short_term := short_term self;
           long_term := long_term self |}).

Definition on_short_term {Content A : Type}
  (m : M (MemoryLayer Content) A) : M (HierarchicalMemory Content) A :=
  fun self =>
    let (r, s) := m (short_term self) in
    (r, {| working_memory := working_memory self;
           short_term := s;
           long_term := long_term self |}).

Definition on_long_term {Content A : Type}
  (m : M (MemoryLayer Content) A) : M (HierarchicalMemory Content) A :=
  fun self =>
    let (r, l) := m (long_term self) in
    (r, {| working_memory := working_memory self;
           short_term := short_term self;
           long_term := l |}).

(** [HierarchicalMemory.store]. *)
Definition store {Content : Type}
  (content : Content) (importance : float) (now : datetime)
  : M (HierarchicalMemory Content) unit :=
  entry <- lift (MemoryEntry_init content importance now) ;;
  if PyFloat.gtb importance PyFloat.lit_0_8 then
    on_working_memory (add entry)
  else if PyFloat.gtb importance PyFloat.lit_0_5 then
    on_short_term (add entry)
  else
    on_long_term (add entry).

(* ================================================================== *)
(** ** Sequences of calls *)

(** A call on a layer: the public [add], or the eviction on its own. *)
Inductive layer_call (Content : Type) : Type :=
| Add (entry : MemoryEntry Content)
| Evict.

Arguments Add {Content} _.
Arguments Evict {Content}.

Definition run_call {Content : Type} (c : layer_call Content)
  : M (MemoryLayer Content) unit :=
  match c with
  | Add entry => add entry
  | Evict => _evict ;;; ret tt
  end.

(** The layer after the calls [cs], made one after the other; a call that
    raises leaves the layer as the exception found it and the next call goes
    on from there. *)
Fixpoint run_calls {Content : Type} (cs : list (layer_call Content))
  (self : MemoryLayer Content) : MemoryLayer Content :=
  match cs with
  | [] => self
  | c :: t => run_calls t (exec (run_call c) self)
  end.

(** The entry was built by the constructor and not changed since. *)
Definition constructed {Content : Type} (e : MemoryEntry Content) : Prop :=
  exists c i now, MemoryEntry_init c i now = inr e.

Definition constructed_call {Content : Type} (c : layer_call Content) : Prop :=
  match c with
  | Add entry => constructed entry
  | Evict => True
  end.

(** The arguments of one [store] call, with the clock reading it gets. *)
Record store_args (Content : Type) : Type := mkStore {
  arg_content : Content;
  arg_importance : float;
  arg_now : datetime
}.

Arguments mkStore {Content} _ _ _.
Arguments arg_content {Content} _.
Arguments arg_importance {Content} _.
Arguments arg_now {Content} _.

Fixpoint run_stores {Content : Type} (cs : list (store_args Content))
  (self : HierarchicalMemory Content) : HierarchicalMemory Content :=
  match cs with
  | [] => self
  | c :: t =>
      run_stores t
        (exec (store (arg_content c) (arg_importance c) (arg_now c)) self)
  end.

(** The states a store can be in: the constructed one, after any calls. *)
Definition reachable {Content : Type} (m : HierarchicalMemory Content) : Prop :=
  exists m0 cs, HierarchicalMemory_init = inr m0 /\ m = run_stores cs m0.

(** The store that [HierarchicalMemory()] returns, written out. *)
Definition empty_memory {Content : Type} : HierarchicalMemory Content :=
  {| working_memory := {| capacity := 5; memories := [] |};
     short_term := {| capacity := 50; memories := [] |};
     long_term := {| capacity := 1000; memories := [] |} |}.

(** The three layers, and the one the thresholds of [store] select. *)
Inductive layer_id : Type := Working | ShortTerm | LongTerm.

Definition layer_of {Content : Type} (which : layer_id)
  (m : HierarchicalMemory Content) : MemoryLayer Content :=
  match which with
  | Working => working_memory m
  | ShortTerm => short_term m
  | LongTerm => long_term m
  end.

Definition route (importance : float) : layer_id :=
  if PyFloat.gtb importance PyFloat.lit_0_8 then Working
  else if PyFloat.gtb importance PyFloat.lit_0_5 then ShortTerm
  else LongTerm.

(** [store] returns and the new entry is the last of layer [which]; that
    layer kept its residents, but for the first when it was full; the other
    two layers are as before. *)
Definition lands_in {Content : Type} (which : layer_id)
  (content : Content) (importance : float) (now : datetime)
  (m : HierarchicalMemory Content) : Prop :=
  exists entry m' kept,
    MemoryEntry_init content importance now = inr entry /\
    store content importance now m = (inr tt, m') /\
    memories (layer_of which m') = kept ++ [entry] /\
    (kept = memories (layer_of which m) \/
     exists evicted, memories (layer_of which m) = evicted :: kept) /\
    capacity (layer_of which m') = capacity (layer_of which m) /\
    forall other, other <> which -> layer_of other m' = layer_of other m.

(** A layer of the store: its capacity, and residents that were never
    accessed and that the thresholds send to this layer. *)
Definition layer_ok {Content : Type} (which : layer_id) (cap : Z)
  (self : MemoryLayer Content) : Prop :=
  capacity self = cap /\
  size self <= cap /\
  Forall (fun e => access_count e = 0 /\ route (importance e) = which)
         (memories self).

Definition store_ok {Content : Type} (m : HierarchicalMemory Content) : Prop :=
  layer_ok Working 5 (working_memory m) /\
  layer_ok ShortTerm 50 (short_term m) /\
  layer_ok LongTerm 1000 (long_term m).

(** The layers the operations of the code produce: a constructed layer after
    calls with entries as the constructor builds them, or a layer of a store
    in one of its states. *)
Definition produced_layer {Content : Type} (self : MemoryLayer Content) : Prop :=
  (exists c cs self0,
      MemoryLayer_init c = inr self0 /\
      Forall constructed_call cs /\ self = run_calls cs self0) \/
  (exists m which, reachable m /\ self = layer_of which m).

(* ================================================================== *)
(** ** Scores as sort keys *)

(** The score of an entry whose score does not raise. *)
Definition key_value {Content : Type} (e : MemoryEntry Content) : float :=
  match score e with
  | inr k => k
  | inl _ => PyFloat.nan
  end.

(** [<] orders the keys [ks] weakly: being "not below" is transitive.  It holds
    when no key is NaN, and when no key is below another; it fails only when
    NaN sits among keys that differ. *)
Definition weakly_ordered (ks : list float) : bool :=
  forallb (fun a =>
    forallb (fun b =>
      forallb (fun c =>
        PyFloat.ltb a b || PyFloat.ltb b c || negb (PyFloat.ltb a c)) ks) ks) ks.

(** No key is strictly below another. *)
Definition all_tied (ks : list float) : bool :=
  forallb (fun a => forallb (fun b => negb (PyFloat.ltb a b)) ks) ks.

(** "Not below" is transitive among the keys of [l]. *)
Definition neg_trans_on {B : Type} (kf : B -> float) (l : list B) : Prop :=
  forall a b c, In a l -> In b l -> In c l ->
    PyFloat.ltb (kf a) (kf b) = false -> PyFloat.ltb (kf b) (kf c) = false ->
    PyFloat.ltb (kf a) (kf c) = false.

(** Ascending: no element is strictly below an earlier one. *)
Definition ascending {B : Type} (kf : B -> float) (l : list B) : Prop :=
  StronglySorted (fun x y => PyFloat.ltb (kf y) (kf x) = false) l.

(* ================================================================== *)
(** ** Insertion labels *)








(* ================================================================== *)
(** ** Histories of a layer and of a store *)


(** No element is strictly below the one just before it.  [list.sort] takes
    such a list for one ascending run and moves nothing, whatever the keys. *)
Fixpoint no_descent {B : Type} (kf : B -> float) (l : list B) : bool :=
  match l with
  | [] => true
  | x :: t =>
      match t with
      | [] => true
      | y :: _ => negb (PyFloat.ltb (kf y) (kf x)) && no_descent kf t
      end
  end.

(** The last [n] elements of [l], in order ([l[-n:]] for [n > 0]). *)
Definition lastn {A : Type} (n : nat) (l : list A) : list A :=
  skipn (length l - n) l.

(** The entry a [store] call builds from its arguments. *)
Definition entry_of {Content : Type} (a : store_args Content)
  : MemoryEntry Content :=
  {| content := arg_content a;
     importance := arg_importance a;
     timestamp := arg_now a;
     access_count := 0 |}.

Definition layer_id_eqb (a b : layer_id) : bool :=
  match a, b with
  | Working, Working | ShortTerm, ShortTerm | LongTerm, LongTerm => true
  | _, _ => false
  end.

(** The entries of the calls [cs] that the thresholds send to [which]. *)
Definition routed {Content : Type} (which : layer_id)
  (cs : list (store_args Content)) : list (MemoryEntry Content) :=
  map entry_of
    (filter (fun a => layer_id_eqb (route (arg_importance a)) which) cs).

(** The capacities [HierarchicalMemory.__init__] gives the layers. *)
Definition capacity_of (which : layer_id) : nat :=
  match which with
  | Working => 5
  | ShortTerm => 50
  | LongTerm => 1000
  end.

(** Entries rewritten by [f], which may change [content] and [timestamp]
    only. *)
Definition keeps_score {C D : Type} (f : MemoryEntry C -> MemoryEntry D) : Prop :=
  forall e, importance (f e) = importance e /\
            access_count (f e) = access_count e.

Definition map_call {C D : Type} (f : MemoryEntry C -> MemoryEntry D)
  (c : layer_call C) : layer_call D :=
  match c with
  | Add entry => Add (f entry)
  | Evict => Evict
  end.

Definition map_layer {C D : Type} (f : MemoryEntry C -> MemoryEntry D)
  (self : MemoryLayer C) : MemoryLayer D :=
  {| capacity := capacity self; memories := map f (memories self) |}.

(* ================================================================== *)
(** ** The prompt classes *)

Abbreviation str := String.string.

(** A [dict] with [str] keys, in insertion order. *)
Definition dict (V : Type) : Type := list (str * V).

(** [d[k] = v]: replaces the value of [k] where it stands, or adds the pair
    at the end. *)
Fixpoint dict_setitem {V : Type} (k : str) (v : V) (d : dict V) : dict V :=
  match d with
  | [] => [(k, v)]
  | (k', v') :: t =>
      if String.eqb k' k then (k', v) :: t
      else (k', v') :: dict_setitem k v t
  end.

(** The value [d[k]] looks up, if [k in d]. *)
Fixpoint dict_lookup {V : Type} (k : str) (d : dict V) : option V :=
  match d with
  | [] => None
  | (k', v') :: t => if String.eqb k' k then Some v' else dict_lookup k t
  end.

(** [k in d]. *)
Definition dict_contains {V : Type} (k : str) (d : dict V) : bool :=
  match dict_lookup k d with
  | Some _ => true
  | None => false
  end.

(** The exceptions of the prompt classes: a missing [dict] key, a missing
    attribute, a keyword argument that collides with a parameter, and
    whatever the template engine raises. *)
Inductive prompt_exn (JinjaError : Type) : Type :=
| KeyError (key : str)
| AttributeError (attribute : str)
| TypeError (argument : str)
| TemplateError (e : JinjaError).

Arguments KeyError {JinjaError} _.
Arguments AttributeError {JinjaError} _.
Arguments TypeError {JinjaError} _.
Arguments TemplateError {JinjaError} _.

(** A call on a receiver of state [S] that raises a [prompt_exn]. *)
Definition PM (J S A : Type) : Type := S -> (prompt_exn J + A) * S.

Definition pret {J S A : Type} (a : A) : PM J S A :=
  fun s => (inr a, s).

Definition pbind {J S A B : Type} (m : PM J S A) (f : A -> PM J S B)
  : PM J S B :=
  fun s =>
    match m s with
    | (inl e, s') => (inl e, s')
    | (inr a, s') => f a s'
    end.

Definition praise {J S A : Type} (e : prompt_exn J) : PM J S A :=
  fun s => (inl e, s).

Definition pget {J S : Type} : PM J S S :=
  fun s => (inr s, s).

(** [d[k]] as an expression: the value, or [KeyError(k)]. *)
Definition dict_getitem {J S V : Type} (k : str) (d : dict V) : PM J S V :=
  match dict_lookup k d with
  | Some v => pret v
  | None => praise (KeyError k)
  end.

(** *** PromptLibrary; [Template] stands for any object with [render]. *)

Record PromptLibrary (Template : Type) : Type := mkLibrary {
  templates : dict Template
}.

Arguments mkLibrary {Template} _.
Arguments templates {Template} _.

(** [PromptLibrary()]. *)
Definition PromptLibrary_init {Template : Type} : PromptLibrary Template :=
  {| templates := [] |}.

(** [PromptLibrary.register_template]. *)
Definition register_template {J Template : Type} (name : str)
  (template : Template) : PM J (PromptLibrary Template) unit :=
  fun self =>
    (inr tt, {| templates := dict_setitem name template (templates self) |}).

(** [PromptLibrary.get_template]. *)
Definition get_template {J Template : Type} (name : str)
  : PM J (PromptLibrary Template) Template :=
  pbind pget (fun self => dict_getitem name (templates self)).

(** The library after the registrations [rs], made in that order. *)
Fixpoint register_all (J : Type) {Template : Type}
  (rs : list (str * Template)) (self : PromptLibrary Template)
  : PromptLibrary Template :=
  match rs with
  | [] => self
  | (name, template) :: t =>
      register_all J t (snd (@register_template J Template name template self))
  end.

(** The template of the last pair of [rs] with name [name]. *)
Fixpoint last_registered {Template : Type} (name : str)
  (rs : list (str * Template)) : option Template :=
  match rs with
  | [] => None
  | (n, template) :: t =>
      match last_registered name t with
      | Some later => Some later
      | None => if String.eqb n name then Some template else None
      end
  end.

(** *** JinjaPromptTemplate and PromptVersion

    The template engine is outside the repository: [Template s] is the
    constructor [jinja2.Template(s)] and [Template_render t kwargs] is
    [t.render] with the keyword arguments [kwargs]; either returns or raises. *)

Section PromptVersionModel.

Context {JinjaError JinjaTemplate Value Metadata : Type}.
Variable Template : str -> JinjaError + JinjaTemplate.
Variable Template_render :
  JinjaTemplate -> dict Value -> JinjaError + str.

Record JinjaPromptTemplate : Type := mkJinjaPromptTemplate {
  jinja_template : JinjaTemplate
}.

(** [JinjaPromptTemplate(template_string)]. *)
Definition JinjaPromptTemplate_init (template_string : str)
  : prompt_exn JinjaError + JinjaPromptTemplate :=
  match Template template_string with
  | inl e => inl (TemplateError e)
  | inr t => inr {| jinja_template := t |}
  end.

(** [JinjaPromptTemplate.render], called with the keyword arguments
    [kwargs].  The method's first parameter is [self]: a keyword of that
    name cannot be bound and the call raises [TypeError] before the body
    runs. *)
Definition render (self : JinjaPromptTemplate) (kwargs : dict Value)
  : prompt_exn JinjaError + str :=
  if dict_contains "self"%string kwargs then inl (TypeError "self"%string)
  else
    match Template_render (jinja_template self) kwargs with
    | inl e => inl (TemplateError e)
    | inr s => inr s
    end.

Record PromptVersion : Type := mkVersion {
  version : str;
  template : str;
  metadata : Metadata;
  test_cases : list (dict Value * str)
}.

(** [PromptVersion(version, template, metadata)]. *)
Definition PromptVersion_init (version template : str) (metadata : Metadata)
  : PromptVersion :=
  {| version := version;
     template := template;
     metadata := metadata;
     test_cases := [] |}.

(** [PromptVersion.add_test_case]. *)
Definition add_test_case (inputs : dict Value) (expected_output : str)
  : PM JinjaError PromptVersion unit :=
  fun self =>
    (inr tt, {| version := version self;
                template := template self;
                metadata := metadata self;
                test_cases := test_cases self ++ [(inputs, expected_output)] |}).

(** The attribute [self._validate_output]: neither [__init__] nor the class
    defines it, so looking it up raises [AttributeError]. *)
Definition getattr_validate_output
  : PM JinjaError PromptVersion (str -> str -> PM JinjaError PromptVersion bool) :=
  praise (AttributeError "_validate_output"%string).

(** The [for] loop of [validate] over the test cases still to run. *)
Fixpoint validate_loop (template : JinjaPromptTemplate)
  (cases : list (dict Value * str)) : PM JinjaError PromptVersion bool :=
  match cases with
  | [] => pret true
  | (inputs, expected) :: rest =>
      pbind (fun self => (render template inputs, self)) (fun result =>
      pbind getattr_validate_output (fun _validate_output =>
      pbind (_validate_output result expected) (fun ok =>
      if negb ok then pret false
      else validate_loop template rest)))
  end.

(** [PromptVersion.validate]. *)
Definition validate : PM JinjaError PromptVersion bool :=
  pbind pget (fun self =>
  pbind (fun s => (JinjaPromptTemplate_init (template self), s)) (fun template =>
  validate_loop template (test_cases self))).

End PromptVersionModel.

(* ================================================================== *)
(** * Facts about float comparison *)

Module PyFloatFacts.
Import PyFloat.

Ltac cmp_cases :=
  repeat match goal with
  | |- context [Z.compare ?a ?b] =>
      destruct (Z.compare_spec a b); subst; simpl
  | |- context [PosDef.Pos.compare_cont Eq ?a ?b] =>
      change (PosDef.Pos.compare_cont Eq a b) with (Pos.compare a b);
      destruct (Pos.compare_spec a b); subst; simpl
  end.

Ltac by_cases :=
  unfold ltb, gtb, leb, eqb, SFltb, SFleb, SFeqb, SFcompare;
  repeat match goal with
  | x : float |- _ => destruct x as [[|]|[|]| |[|] ? ?]
  | x : spec_float |- _ => destruct x as [[|]|[|]| |[|] ? ?]
  end;
  simpl; try congruence; try reflexivity;
  cmp_cases; try congruence; try lia.

Lemma ltb_irrefl (a : float) : ltb a a = false.
Proof. by_cases. Qed.

Lemma ltb_asym (a b : float) : ltb a b = true -> ltb b a = false.
Proof. by_cases. Qed.

Lemma ltb_trans (a b c : float) :
  ltb a b = true -> ltb b c = true -> ltb a c = true.
Proof. by_cases. Qed.

(** Away from NaN, "not below" is transitive. *)
Lemma ltb_negtrans (a b c : float) :
  is_nan b = false ->
  ltb a b = false -> ltb b c = false -> ltb a c = false.
Proof. by_cases. Qed.

Lemma ltb_nan_l (a : float) : ltb nan a = false.
Proof. by_cases. Qed.

Lemma ltb_nan_r (a : float) : ltb a nan = false.
Proof. by_cases. Qed.

Lemma leb_not_gtb (a b : float) :
  is_nan a = false -> is_nan b = false -> leb a b = negb (ltb b a).
Proof. by_cases. Qed.

Lemma leb_nan_l (a : float) : leb nan a = false.
Proof. by_cases. Qed.

Lemma leb_nan_r (a : float) : leb a nan = false.
Proof. by_cases. Qed.

Lemma leb_gtb_false (a b : float) : leb a b = true -> gtb a b = false.
Proof. by_cases. Qed.

Lemma leb_trans (a b c : float) :
  leb a b = true -> leb b c = true -> leb a c = true.
Proof. by_cases. Qed.

Lemma ltb_leb_trans (a b c : float) :
  ltb a b = true -> leb b c = true -> ltb a c = true.
Proof. by_cases. Qed.

Lemma leb_ltb_not_gtb (a b c : float) :
  leb a b = true -> ltb b c = true -> gtb a c = false.
Proof. by_cases. Qed.

(** What [x * 0.0] can be. *)
Lemma mul_zero_r (x : float) (s : bool) :
  mul x (S754_zero s) =
    if is_finite x then S754_zero (xorb (match x with
                                         | S754_zero sx => sx
                                         | S754_finite sx _ _ => sx
                                         | _ => false
                                         end) s)
    else nan.
Proof. destruct x; reflexivity. Qed.

(** Zero and NaN are never strictly ordered with one another. *)
Lemma ltb_zero_or_nan (a b : float) :
  is_zero a || is_nan a = true ->
  is_zero b || is_nan b = true ->
  ltb a b = false.
Proof. destruct a, b; simpl; intros; try discriminate; reflexivity. Qed.

(** The literals are the binary64 values of the decimal fractions. *)
Lemma literals_are_rounded_fractions :
  lit_0_8 = fraction 8 10 /\ lit_0_5 = fraction 5 10 /\
  lit_0_81 = fraction 81 100 /\ lit_0_9 = fraction 9 10 /\
  lit_0_2 = fraction 2 10 /\ lit_0_1 = fraction 1 10 /\
  lit_1_0 = fraction 1 1.
Proof. vm_compute. repeat split. Qed.

Lemma of_int_0 : of_int 0 = inr (S754_zero false).
Proof. reflexivity. Qed.

End PyFloatFacts.

(* ================================================================== *)
(** * Facts about the sort *)

Section SortFacts.

Context {B : Type}.
Variable kf : B -> float.

Import PyFloat PyFloatFacts.

Lemma neg_trans_on_incl (l l' : list B) :
  incl l' l -> neg_trans_on kf l -> neg_trans_on kf l'.
Proof. intros Hi H a b c Ha Hb Hc. apply H; auto. Qed.

Lemma insert_sorted_perm (x : B) (s : list B) :
  Permutation (insert_sorted kf x s) (x :: s).
Proof.
  induction s as [|y t IH]; simpl.
  - reflexivity.
  - destruct (ltb (kf y) (kf x)).
    + rewrite IH. apply perm_swap.
    + reflexivity.
Qed.

Lemma stable_sort_perm (l : list B) : Permutation (stable_sort kf l) l.
Proof.
  induction l as [|x t IH]; simpl.
  - reflexivity.
  - rewrite insert_sorted_perm. now constructor.
Qed.

Lemma stable_sort_length (l : list B) : length (stable_sort kf l) = length l.
Proof. apply Permutation_length, stable_sort_perm. Qed.

Lemma stable_sort_in (l : list B) (x : B) : In x (stable_sort kf l) <-> In x l.
Proof.
  split; apply Permutation_in;
    [apply stable_sort_perm | symmetry; apply stable_sort_perm].
Qed.

(** When nothing is strictly below anything, the sort moves nothing. *)
Lemma stable_sort_tied (l : list B) :
  (forall x y, In x l -> In y l -> ltb (kf x) (kf y) = false) ->
  stable_sort kf l = l.
Proof.
  induction l as [|x t IH]; intros H; simpl.
  - reflexivity.
  - rewrite IH by (intros; apply H; now right).
    destruct t as [|y t']; simpl.
    + reflexivity.
    + now rewrite (H y x) by (simpl; auto).
Qed.



(** Under a weak order the result is ascending. *)
Lemma insert_sorted_ascending (x : B) (s : list B) :
  neg_trans_on kf (x :: s) ->
  ascending kf s -> ascending kf (insert_sorted kf x s).
Proof.
  unfold ascending.
  induction s as [|y t IH]; intros Hw Hs; simpl.
  - repeat constructor.
  - inversion Hs as [|? ? Ht Hy]; subst.
    destruct (ltb (kf y) (kf x)) eqn:E.
    + constructor.
      * apply IH; [|exact Ht].
        eapply neg_trans_on_incl; [|exact Hw].
        intros z [<-|Hz]; simpl; auto.
      * eapply Permutation_Forall.
        -- symmetry. apply insert_sorted_perm.
        -- constructor; [now apply ltb_asym | exact Hy].
    + constructor; [exact Hs|].
      constructor; [exact E|].
      rewrite Forall_forall in Hy |- *. intros z Hz.
      apply (Hw z y x); simpl; auto.
Qed.

Lemma stable_sort_ascending (l : list B) :
  neg_trans_on kf l -> ascending kf (stable_sort kf l).
Proof.
  induction l as [|x t IH]; intros Hw; simpl.
  - constructor.
  - apply insert_sorted_ascending.
    + intros a b c Ha Hb Hc. apply Hw.
      * destruct Ha as [<-|Ha]; [now left | right; now apply stable_sort_in].
      * destruct Hb as [<-|Hb]; [now left | right; now apply stable_sort_in].
      * destruct Hc as [<-|Hc]; [now left | right; now apply stable_sort_in].
    + apply IH. eapply neg_trans_on_incl; [|exact Hw].
      intros z Hz. now right.
Qed.

(** Under a weak order the first element of the result is the first element
    of the list that nothing is strictly below; the rest is the sort of the
    others. *)
Lemma stable_sort_head (l : list B) :
  neg_trans_on kf l -> l <> [] ->
  exists l1 r l2,
    l = l1 ++ r :: l2 /\
    stable_sort kf l = r :: stable_sort kf (l1 ++ l2) /\
    (forall y, In y l1 -> ltb (kf r) (kf y) = true) /\
    (forall y, In y l2 -> ltb (kf y) (kf r) = false).
Proof.
  induction l as [|x t IH]; intros Hw Hne; [congruence|].
  destruct t as [|x' t'].
  - exists [], x, []. simpl. repeat split; intros y [].
  - destruct IH as (l1 & r & l2 & Hl & Hs & H1 & H2).
    + eapply neg_trans_on_incl; [|exact Hw]. intros z Hz. now right.
    + discriminate.
    + change (stable_sort kf (x :: x' :: t'))
        with (insert_sorted kf x (stable_sort kf (x' :: t'))).
      rewrite Hs. simpl. destruct (ltb (kf r) (kf x)) eqn:E.
      * exists (x :: l1), r, l2. rewrite Hl. simpl. repeat split.
        -- intros y [<-|Hy]; auto.
        -- exact H2.
      * exists [], x, (x' :: t'). cbn [app]. rewrite Hs. repeat split.
        -- intros y [].
        -- intros y Hy.
           assert (Hr : In r (x' :: t'))
             by (rewrite Hl; apply in_or_app; right; now left).
           apply (Hw y r x); [now right | now right | now left | | exact E].
           rewrite Hl in Hy. apply in_app_or in Hy.
           destruct Hy as [Hy|[<-|Hy]].
           ++ apply ltb_asym. now apply H1.
           ++ apply ltb_irrefl.
           ++ now apply H2.
Qed.

(** Stability: the elements that tie with [x] keep their order. *)
Lemma insert_sorted_filter (x a : B) (s : list B) :
  neg_trans_on kf (x :: a :: s) ->
  filter (tieb kf x) (insert_sorted kf a s) = filter (tieb kf x) (a :: s).
Proof.
  induction s as [|y t IH]; intros Hw.
  - reflexivity.
  - simpl insert_sorted. destruct (ltb (kf y) (kf a)) eqn:E; [|reflexivity].
    cbn [filter]. rewrite IH.
    + cbn [filter].
      destruct (tieb kf x y) eqn:Ty, (tieb kf x a) eqn:Ta; try reflexivity.
      exfalso. unfold tieb in Ty, Ta.
      apply andb_true_iff in Ty. destruct Ty as [_ Ty].
      apply andb_true_iff in Ta. destruct Ta as [Ta _].
      apply negb_true_iff in Ty, Ta.
      rewrite (Hw y x a) in E; simpl; auto. discriminate.
    + eapply neg_trans_on_incl; [|exact Hw].
      intros z [<-|[<-|Hz]]; simpl; auto.
Qed.

Lemma stable_sort_filter (x : B) (l : list B) :
  neg_trans_on kf (x :: l) ->
  filter (tieb kf x) (stable_sort kf l) = filter (tieb kf x) l.
Proof.
  induction l as [|a t IH]; intros Hw.
  - reflexivity.
  - simpl stable_sort. rewrite insert_sorted_filter.
    + cbn [filter]. rewrite IH; [reflexivity|].
      eapply neg_trans_on_incl; [|exact Hw].
      intros z [<-|Hz]; simpl; auto.
    + eapply neg_trans_on_incl; [|exact Hw].
      intros z [<-|[<-|Hz]]; simpl; auto.
      right. right. exact (proj1 (stable_sort_in t z) Hz).
Qed.

Lemma stable_sort_stably_sorted (l : list B) :
  neg_trans_on kf l -> stably_sorted kf l (stable_sort kf l).
Proof.
  intros Hw. split; [|split].
  - symmetry. apply stable_sort_perm.
  - now apply stable_sort_ascending.
  - intros x Hx. apply stable_sort_filter.
    eapply neg_trans_on_incl; [|exact Hw].
    intros z [<-|Hz]; auto.
Qed.

(** Two ascending arrangements of the same elements that agree on the order
    of the elements that tie are the same list. *)
Lemma ascending_unique (l1 l2 : list B) :
  Permutation l1 l2 ->
  ascending kf l1 -> ascending kf l2 ->
  (forall x, In x l1 -> filter (tieb kf x) l1 = filter (tieb kf x) l2) ->
  l1 = l2.
Proof.
  unfold ascending.
  revert l2. induction l1 as [|a t1 IH]; intros l2 Hp H1 H2 Hf.
  - apply Permutation_nil in Hp. now subst.
  - destruct l2 as [|b t2].
    + symmetry in Hp. apply Permutation_nil in Hp. discriminate.
    + inversion H1 as [|? ? Ht1 Ha]; subst.
      inversion H2 as [|? ? Ht2 Hb]; subst.
      rewrite Forall_forall in Ha, Hb.
      assert (Hba : ltb (kf b) (kf a) = false).
      { assert (Hin : In b (a :: t1))
          by (eapply Permutation_in; [symmetry; exact Hp | now left]).
        destruct Hin as [<-|Hin]; [apply ltb_irrefl | now apply Ha]. }
      assert (Hab : ltb (kf a) (kf b) = false).
      { assert (Hin : In a (b :: t2))
          by (eapply Permutation_in; [exact Hp | now left]).
        destruct Hin as [<-|Hin]; [apply ltb_irrefl | now apply Hb]. }
      pose proof (Hf a (or_introl eq_refl)) as Hfa. cbn [filter] in Hfa.
      assert (Taa : tieb kf a a = true)
        by (unfold tieb; now rewrite ltb_irrefl).
      assert (Tab : tieb kf a b = true)
        by (unfold tieb; now rewrite Hab, Hba).
      rewrite Taa, Tab in Hfa. inversion Hfa; subst b. f_equal.
      apply IH; auto.
      * now apply Permutation_cons_inv in Hp.
      * intros x Hx. specialize (Hf x (or_intror Hx)). cbn [filter] in Hf.
        destruct (tieb kf x a); [now inversion Hf | exact Hf].
Qed.

(** Under a weak order, [stable_sort] yields the one stably sorted
    arrangement: any sort that keeps Python's promise returns the same list. *)
Lemma stably_sorted_unique (l l' : list B) :
  neg_trans_on kf l -> stably_sorted kf l l' -> l' = stable_sort kf l.
Proof.
  intros Hw (Hp & Ha & Hf).
  destruct (stable_sort_stably_sorted l Hw) as (Hp' & Ha' & Hf').
  apply ascending_unique.
  - now rewrite <- Hp.
  - exact Ha.
  - exact Ha'.
  - intros x Hx.
    assert (Hin : In x l)
      by (eapply Permutation_in; [symmetry; exact Hp | exact Hx]).
    now rewrite Hf, Hf'.
Qed.

End SortFacts.

(** Sorting the decorated list and dropping the keys is sorting by key. *)
Lemma insert_sorted_decorated {A : Type} (k : A -> float) (x : A) (s : list A) :
  map snd (insert_sorted fst (k x, x) (map (fun e => (k e, e)) s))
  = insert_sorted k x s.
Proof.
  induction s as [|y t IH]; simpl.
  - reflexivity.
  - destruct (PyFloat.ltb (k y) (k x)); simpl; [now rewrite IH|].
    now rewrite map_map, map_id.
Qed.

Lemma insert_sorted_map {A B : Type} (f : A -> B) (kb : B -> float)
  (x : A) (s : list A) :
  insert_sorted kb (f x) (map f s) = map f (insert_sorted (fun a => kb (f a)) x s).
Proof.
  induction s as [|y t IH]; simpl.
  - reflexivity.
  - destruct (PyFloat.ltb (kb (f y)) (kb (f x))); simpl; [now rewrite IH|].
    reflexivity.
Qed.

Lemma stable_sort_map {A B : Type} (f : A -> B) (kb : B -> float) (l : list A) :
  stable_sort kb (map f l) = map f (stable_sort (fun a => kb (f a)) l).
Proof.
  induction l as [|x t IH]; simpl.
  - reflexivity.
  - now rewrite IH, insert_sorted_map.
Qed.

Lemma stable_sort_decorated {A : Type} (k : A -> float) (l : list A) :
  map snd (stable_sort fst (map (fun e => (k e, e)) l)) = stable_sort k l.
Proof.
  rewrite stable_sort_map, map_map. simpl. apply map_id.
Qed.

Lemma insert_sorted_ext {A : Type} (k k' : A -> float) (x : A) (s : list A) :
  k x = k' x -> (forall y, In y s -> k y = k' y) ->
  insert_sorted k x s = insert_sorted k' x s.
Proof.
  intros Hx. induction s as [|y t IH]; intros H; simpl.
  - reflexivity.
  - rewrite Hx, (H y) by now left.
    destruct (PyFloat.ltb (k' y) (k' x)); [|reflexivity].
    f_equal. apply IH. intros z Hz. apply H. now right.
Qed.

Lemma stable_sort_ext {A : Type} (k k' : A -> float) (l : list A) :
  (forall x, In x l -> k x = k' x) -> stable_sort k l = stable_sort k' l.
Proof.
  induction l as [|x t IH]; intros H; simpl.
  - reflexivity.
  - rewrite IH by (intros; apply H; now right).
    apply insert_sorted_ext.
    + apply H. now left.
    + intros y Hy. apply H. right.
      exact (proj1 (stable_sort_in k' t y) Hy).
Qed.

(* ================================================================== *)
(** * The layer's methods, call by call *)

Section LayerFacts.

Context {Content : Type}.

Local Abbreviation entry := (MemoryEntry Content).
Local Abbreviation layer := (MemoryLayer Content).

Lemma keys_of_values (l : list entry) (ks : list float) :
  keys_of score l = inr ks -> ks = map key_value l.
Proof.
  revert ks. induction l as [|x t IH]; simpl; intros ks H.
  - now inversion H.
  - unfold key_value at 1. destruct (score x) as [e|k]; [discriminate|].
    destruct (keys_of score t) as [e|ks']; [discriminate|].
    inversion H; subst. f_equal. now apply IH.
Qed.

Lemma keys_of_ok (l : list entry) :
  (forall x, In x l -> exists k, score x = inr k) ->
  keys_of score l = inr (map key_value l).
Proof.
  induction l as [|x t IH]; simpl; intros H.
  - reflexivity.
  - unfold key_value at 1.
    destruct (H x) as [k ->]; [now left|].
    rewrite IH by (intros; apply H; now right). reflexivity.
Qed.

Lemma keys_of_score (l : list entry) (ks : list float) (x : entry) :
  keys_of score l = inr ks -> In x l -> score x = inr (key_value x).
Proof.
  revert ks. induction l as [|y t IH]; simpl; intros ks H Hx; [easy|].
  destruct (score y) as [e|k] eqn:Ey; [discriminate|].
  destruct (keys_of score t) as [e|ks']; [discriminate|].
  destruct Hx as [<-|Hx].
  - unfold key_value. now rewrite Ey.
  - now apply (IH ks').
Qed.

Lemma combine_map_self {A K : Type} (k : A -> K) (l : list A) :
  combine (map k l) l = map (fun e => (k e, e)) l.
Proof. induction l; simpl; congruence. Qed.

(** The sort, once every key is computed, is the stable sort by score. *)
Lemma list_sort_ok (l : list entry) (ks : list float) :
  keys_of score l = inr ks ->
  list_sort score l = (inr tt, stable_sort key_value l).
Proof.
  intros H. unfold list_sort. rewrite H.
  rewrite (keys_of_values _ _ H), combine_map_self, stable_sort_decorated.
  reflexivity.
Qed.

Lemma list_sort_raises (l : list entry) (e : exn) :
  keys_of score l = inl e -> list_sort score l = (inl e, l).
Proof. intros H. unfold list_sort. now rewrite H. Qed.

(** What [_evict] does, by cases. *)
Lemma _evict_eq (self : layer) :
  _evict self =
    match keys_of score (memories self) with
    | inl e => (inl e, self)
    | inr _ =>
        match stable_sort key_value (memories self) with
        | [] => (inl IndexError, {| capacity := capacity self; memories := [] |})
        | _ :: rest =>
            (inr None, {| capacity := capacity self; memories := rest |})
        end
    end.
Proof.
  destruct self as [c l]. unfold _evict, bind, on_memories. simpl.
  destruct (keys_of score l) as [e|ks] eqn:E.
  - now rewrite (list_sort_raises _ _ E).
  - rewrite (list_sort_ok _ _ E). simpl.
    now destruct (stable_sort key_value l).
Qed.

(** What [add] does, by cases. *)
Lemma add_eq (x : entry) (self : layer) :
  add x self =
    if len_ge (memories self) (capacity self) then
      match _evict self with
      | (inl e, self') => (inl e, self')
      | (inr _, self') =>
          (inr tt, {| capacity := capacity self';
                      memories := memories self' ++ [x] |})
      end
    else
      (inr tt, {| capacity := capacity self; memories := memories self ++ [x] |}).
Proof.
  unfold add, bind, get, ret, on_memories, list_append.
  destruct (len_ge (memories self) (capacity self)); [|reflexivity].
  now destruct (_evict self) as [[e|r] self'].
Qed.

Lemma _evict_capacity (self : layer) :
  capacity (exec _evict self) = capacity self.
Proof.
  unfold exec. rewrite _evict_eq.
  destruct (keys_of score (memories self)); [reflexivity|].
  now destruct (stable_sort key_value (memories self)).
Qed.

Lemma _evict_length (self : layer) :
  (length (memories (exec _evict self)) <= length (memories self))%nat.
Proof.
  unfold exec. rewrite _evict_eq.
  destruct (keys_of score (memories self)); [reflexivity|].
  pose proof (stable_sort_length key_value (memories self)) as Hl.
  destruct (stable_sort key_value (memories self)); simpl in *; lia.
Qed.

(** An eviction that returns has removed exactly one entry. *)
Lemma _evict_returns_length (self self' : layer) (r : option entry) :
  _evict self = (inr r, self') ->
  S (length (memories self')) = length (memories self).
Proof.
  rewrite _evict_eq.
  destruct (keys_of score (memories self)); [discriminate|].
  pose proof (stable_sort_length key_value (memories self)) as Hl.
  destruct (stable_sort key_value (memories self)); [discriminate|].
  intros H. inversion H; subst. simpl in *. lia.
Qed.

Lemma run_call_capacity (c : layer_call Content) (self : layer) :
  capacity (exec (run_call c) self) = capacity self.
Proof.
  destruct c as [x|]; unfold exec; simpl.
  - rewrite add_eq. destruct (len_ge _ _); [|reflexivity].
    pose proof (_evict_capacity self) as H. unfold exec in H.
    now destruct (_evict self) as [[e|r] self'].
  - unfold bind, ret.
    pose proof (_evict_capacity self) as H. unfold exec in H.
    now destruct (_evict self) as [[e|r] self'].
Qed.

(** One call keeps the size within a capacity of at least one. *)
Lemma run_call_size (c : layer_call Content) (self : layer) :
  1 <= capacity self ->
  size self <= capacity self ->
  size (exec (run_call c) self) <= capacity self.
Proof.
  unfold size. intros Hc Hs. destruct c as [x|]; unfold exec; simpl.
  - rewrite add_eq. unfold len_ge.
    destruct (Z.of_nat (length (memories self)) >=? capacity self) eqn:E.
    + pose proof (_evict_length self) as Hl. unfold exec in Hl.
      pose proof (_evict_returns_length self) as Hr.
      destruct (_evict self) as [[e|r] self']; simpl in *.
      * lia.
      * specialize (Hr _ _ eq_refl). rewrite length_app. simpl. lia.
    + simpl. rewrite length_app. simpl. lia.
  - unfold bind, ret.
    pose proof (_evict_length self) as Hl. unfold exec in Hl.
    destruct (_evict self) as [[e|r] self']; simpl in *; lia.
Qed.

Lemma run_calls_capacity (cs : list (layer_call Content)) (self : layer) :
  capacity (run_calls cs self) = capacity self.
Proof.
  revert self. induction cs as [|c t IH]; intros self; simpl.
  - reflexivity.
  - now rewrite IH, run_call_capacity.
Qed.

Lemma run_calls_size (cs : list (layer_call Content)) (self : layer) :
  1 <= capacity self ->
  size self <= capacity self ->
  size (run_calls cs self) <= capacity self.
Proof.
  revert self. induction cs as [|c t IH]; intros self Hc Hs; simpl.
  - exact Hs.
  - rewrite <- (run_call_capacity c self).
    apply IH; rewrite run_call_capacity; [exact Hc|].
    now apply run_call_size.
Qed.

End LayerFacts.

(* ================================================================== *)
(** * Eviction *)

Lemma weakly_ordered_spec (ks : list float) :
  weakly_ordered ks = true ->
  forall a b c, In a ks -> In b ks -> In c ks ->
    PyFloat.ltb a b = false -> PyFloat.ltb b c = false ->
    PyFloat.ltb a c = false.
Proof.
  unfold weakly_ordered. rewrite forallb_forall. intros H a b c Ha Hb Hc Hab Hbc.
  specialize (H a Ha). rewrite forallb_forall in H.
  specialize (H b Hb). rewrite forallb_forall in H.
  specialize (H c Hc). rewrite Hab, Hbc in H. simpl in H.
  now destruct (PyFloat.ltb a c).
Qed.

Lemma all_tied_spec (ks : list float) :
  all_tied ks = true ->
  forall a b, In a ks -> In b ks -> PyFloat.ltb a b = false.
Proof.
  unfold all_tied. rewrite forallb_forall. intros H a b Ha Hb.
  specialize (H a Ha). rewrite forallb_forall in H.
  specialize (H b Hb). now destruct (PyFloat.ltb a b).
Qed.

(** Keys without NaN are weakly ordered, and so are keys that all tie. *)
Lemma weakly_ordered_no_nan (ks : list float) :
  forallb (fun k => negb (PyFloat.is_nan k)) ks = true ->
  weakly_ordered ks = true.
Proof.
  rewrite forallb_forall. intros H. unfold weakly_ordered.
  rewrite forallb_forall. intros a Ha.
  rewrite forallb_forall. intros b Hb.
  rewrite forallb_forall. intros c Hc.
  destruct (PyFloat.ltb a b) eqn:Eab; [reflexivity|].
  destruct (PyFloat.ltb b c) eqn:Ebc; [reflexivity|]. simpl.
  rewrite (PyFloatFacts.ltb_negtrans a b c); auto.
  specialize (H b Hb). now destruct (PyFloat.is_nan b).
Qed.

Lemma weakly_ordered_tied (ks : list float) :
  all_tied ks = true -> weakly_ordered ks = true.
Proof.
  intros H. unfold weakly_ordered.
  rewrite forallb_forall. intros a Ha.
  rewrite forallb_forall. intros b Hb.
  rewrite forallb_forall. intros c Hc.
  rewrite (all_tied_spec ks H a c Ha Hc). simpl. apply orb_true_r.
Qed.

Section EvictFacts.

Context {Content : Type}.

Local Abbreviation entry := (MemoryEntry Content).
Local Abbreviation layer := (MemoryLayer Content).

Lemma weakly_ordered_scores (l : list entry) (ks : list float) :
  keys_of score l = inr ks -> weakly_ordered ks = true ->
  neg_trans_on key_value l.
Proof.
  intros Hk Hw a b c Ha Hb Hc.
  rewrite (keys_of_values _ _ Hk) in Hw.
  apply (weakly_ordered_spec _ Hw); now apply in_map.
Qed.

(** Under weakly ordered scores, the eviction removes the first entry of the
    list that no entry scores strictly below, and leaves the others sorted. *)
Lemma _evict_weakly_ordered (self : layer) (ks : list float) :
  keys_of score (memories self) = inr ks ->
  weakly_ordered ks = true ->
  memories self <> [] ->
  exists l1 removed l2,
    memories self = l1 ++ removed :: l2 /\
    _evict self =
      (inr None, {| capacity := capacity self;
                    memories := stable_sort key_value (l1 ++ l2) |}) /\
    (forall y, In y l1 ->
       PyFloat.ltb (key_value removed) (key_value y) = true) /\
    (forall y, In y l2 ->
       PyFloat.ltb (key_value y) (key_value removed) = false).
Proof.
  intros Hk Hw Hne.
  pose proof (weakly_ordered_scores _ _ Hk Hw) as Hn.
  destruct (stable_sort_head key_value _ Hn Hne)
    as (l1 & r & l2 & Hl & Hs & H1 & H2).
  exists l1, r, l2. repeat split; auto.
  rewrite _evict_eq, Hk, Hs. reflexivity.
Qed.

(** The removed entry is minimal: no resident scores strictly below it. *)
Lemma _evict_removes_minimal (self : layer) (ks : list float) :
  keys_of score (memories self) = inr ks ->
  weakly_ordered ks = true ->
  memories self <> [] ->
  exists removed rest,
    _evict self = (inr None, {| capacity := capacity self; memories := rest |}) /\
    Permutation (memories self) (removed :: rest) /\
    ascending key_value rest /\
    (forall y, In y (memories self) ->
       PyFloat.ltb (key_value y) (key_value removed) = false).
Proof.
  intros Hk Hw Hne.
  destruct (_evict_weakly_ordered self ks Hk Hw Hne)
    as (l1 & r & l2 & Hl & He & H1 & H2).
  exists r, (stable_sort key_value (l1 ++ l2)). repeat split.
  - exact He.
  - rewrite Hl, stable_sort_perm. symmetry. apply Permutation_middle.
  - apply stable_sort_ascending.
    eapply neg_trans_on_incl; [|exact (weakly_ordered_scores _ _ Hk Hw)].
    rewrite Hl. intros z Hz. apply in_or_app.
    apply in_app_or in Hz. destruct Hz; [now left | right; now right].
  - intros y Hy. rewrite Hl in Hy. apply in_app_or in Hy.
    destruct Hy as [Hy|[<-|Hy]].
    + apply PyFloatFacts.ltb_asym. now apply H1.
    + apply PyFloatFacts.ltb_irrefl.
    + now apply H2.
Qed.

End EvictFacts.

(* ================================================================== *)
(** * Claims about eviction *)

(* ================================================================== *)
(** * Entries that were never accessed *)

Section NeverAccessed.

Context {Content : Type}.

Local Abbreviation entry := (MemoryEntry Content).
Local Abbreviation layer := (MemoryLayer Content).

Lemma constructed_iff (e : entry) : constructed e <-> access_count e = 0.
Proof.
  split.
  - intros (c & i & now & H). inversion H; subst. reflexivity.
  - intros H. exists (content e), (importance e), (timestamp e).
    destruct e; simpl in *; subst. reflexivity.
Qed.

(** With [access_count = 0] the score is [importance * 0.0]: a zero when the
    importance is finite, NaN when it is infinite or NaN. *)
Lemma score_never_accessed (e : entry) :
  access_count e = 0 ->
  score e = inr (PyFloat.mul (importance e) (S754_zero false)) /\
  key_value e = PyFloat.mul (importance e) (S754_zero false) /\
  PyFloat.is_zero (key_value e) = PyFloat.is_finite (importance e) /\
  PyFloat.is_nan (key_value e) = negb (PyFloat.is_finite (importance e)).
Proof.
  intros H. unfold key_value, score. rewrite H. simpl.
  repeat split; now destruct (importance e).
Qed.

Lemma never_accessed_tied (a b : entry) :
  access_count a = 0 -> access_count b = 0 ->
  PyFloat.ltb (key_value a) (key_value b) = false.
Proof.
  intros Ha Hb.
  destruct (score_never_accessed a Ha) as (_ & _ & Za & Na).
  destruct (score_never_accessed b Hb) as (_ & _ & Zb & Nb).
  apply PyFloatFacts.ltb_zero_or_nan.
  - rewrite Za, Na. apply orb_negb_r.
  - rewrite Zb, Nb. apply orb_negb_r.
Qed.

Lemma never_accessed_keys (l : list entry) :
  Forall (fun e => access_count e = 0) l ->
  keys_of score l = inr (map key_value l) /\
  all_tied (map key_value l) = true.
Proof.
  intros H. rewrite Forall_forall in H. split.
  - apply keys_of_ok. intros x Hx.
    destruct (score_never_accessed x (H x Hx)) as (Hs & _). eauto.
  - unfold all_tied. rewrite forallb_forall. intros a Ha.
    rewrite forallb_forall. intros b Hb.
    apply in_map_iff in Ha. destruct Ha as (x & <- & Hx).
    apply in_map_iff in Hb. destruct Hb as (y & <- & Hy).
    now rewrite never_accessed_tied by auto.
Qed.

(** When all scores tie, the sort moves nothing and the eviction removes the
    entry at the front of the list. *)
Lemma _evict_tied (self : layer) (ks : list float) :
  keys_of score (memories self) = inr ks ->
  all_tied ks = true ->
  _evict self =
    match memories self with
    | [] => (inl IndexError, self)
    | _ :: rest => (inr None, {| capacity := capacity self; memories := rest |})
    end.
Proof.
  intros Hk Ht. rewrite _evict_eq, Hk.
  rewrite stable_sort_tied.
  - destruct self as [c [|x t]]; reflexivity.
  - intros x y Hx Hy. rewrite (keys_of_values _ _ Hk) in Ht.
    apply (all_tied_spec _ Ht); now apply in_map.
Qed.

Lemma _evict_never_accessed (self : layer) :
  Forall (fun e => access_count e = 0) (memories self) ->
  _evict self =
    match memories self with
    | [] => (inl IndexError, self)
    | _ :: rest => (inr None, {| capacity := capacity self; memories := rest |})
    end.
Proof.
  intros H. destruct (never_accessed_keys _ H) as (Hk & Ht).
  now apply (_evict_tied self _ Hk Ht).
Qed.

(** [add] on a full layer of never accessed entries drops the entry at the
    front, below whose score no resident's is. *)
Lemma add_full_never_accessed (new : entry) (self : layer) :
  Forall (fun e => access_count e = 0) (memories self) ->
  len_ge (memories self) (capacity self) = true ->
  memories self <> [] ->
  exists removed rest,
    memories self = removed :: rest /\
    add new self =
      (inr tt, {| capacity := capacity self; memories := rest ++ [new] |}) /\
    (forall y, In y (memories self) ->
       PyFloat.ltb (key_value y) (key_value removed) = false).
Proof.
  intros Hz Hfull Hne.
  rewrite add_eq, Hfull, (_evict_never_accessed self Hz).
  destruct (memories self) as [|r rest]; [congruence|].
  exists r, rest. repeat split.
  intros y Hy. rewrite Forall_forall in Hz.
  apply never_accessed_tied; apply Hz; [exact Hy | now left].
Qed.

(** Calls with constructed entries keep every resident never accessed. *)
Lemma run_call_never_accessed (c : layer_call Content) (self : layer) :
  constructed_call c ->
  Forall (fun e => access_count e = 0) (memories self) ->
  Forall (fun e => access_count e = 0) (memories (exec (run_call c) self)).
Proof.
  intros Hc H. unfold exec.
  assert (He : Forall (fun e => access_count e = 0)
                 (memories (snd (_evict self)))).
  { rewrite (_evict_never_accessed self H).
    destruct (memories self) as [|x t] eqn:E; simpl.
    - now rewrite E.
    - now inversion H. }
  destruct c as [x|]; simpl.
  - apply constructed_iff in Hc.
    rewrite add_eq. destruct (len_ge _ _).
    + destruct (_evict self) as [[e|r] self']; simpl in *; [exact He|].
      apply Forall_app. split; [exact He | now constructor].
    + simpl. apply Forall_app. split; [exact H | now constructor].
  - unfold bind, ret.
    now destruct (_evict self) as [[e|r] self'].
Qed.

Lemma run_calls_never_accessed (cs : list (layer_call Content)) (self : layer) :
  Forall constructed_call cs ->
  Forall (fun e => access_count e = 0) (memories self) ->
  Forall (fun e => access_count e = 0) (memories (run_calls cs self)).
Proof.
  revert self. induction cs as [|c t IH]; intros self Hcs H; simpl.
  - exact H.
  - inversion Hcs; subst. apply IH; [assumption|].
    now apply run_call_never_accessed.
Qed.

End NeverAccessed.

(* ================================================================== *)
(** * Insertion order *)

Section Labelled.

Context {Content : Type}.

Local Abbreviation lentry := (MemoryEntry (nat * Content)).
Local Abbreviation llayer := (MemoryLayer (nat * Content)).












End Labelled.

Section TieBreak.

Context {Content : Type}.

Local Abbreviation lentry := (MemoryEntry (nat * Content)).
Local Abbreviation llayer := (MemoryLayer (nat * Content)).



End TieBreak.

(* ================================================================== *)
(** * The store *)

Section StoreFacts.

Context {Content : Type}.

Local Abbreviation entry := (MemoryEntry Content).
Local Abbreviation layer := (MemoryLayer Content).
Local Abbreviation memory := (HierarchicalMemory Content).

Lemma HierarchicalMemory_init_eq :
  @HierarchicalMemory_init Content = inr empty_memory.
Proof. reflexivity. Qed.

(** [store] is [add] on the layer the thresholds select. *)
Lemma store_eq (c : Content) (i : float) (now : datetime) (m : memory) :
  store c i now m =
    match route i with
    | Working => on_working_memory (add (mkEntry c i now 0)) m
    | ShortTerm => on_short_term (add (mkEntry c i now 0)) m
    | LongTerm => on_long_term (add (mkEntry c i now 0)) m
    end.
Proof.
  unfold store, route, bind, lift, MemoryEntry_init.
  destruct (PyFloat.gtb i PyFloat.lit_0_8); [reflexivity|].
  destruct (PyFloat.gtb i PyFloat.lit_0_5); reflexivity.
Qed.

(** The layers [store] does not select are left as they are, whatever the
    state and the outcome. *)
Lemma store_other_layers (c : Content) (i : float) (now : datetime)
  (m : memory) (other : layer_id) :
  other <> route i ->
  layer_of other (exec (store c i now) m) = layer_of other m.
Proof.
  intros Hne. unfold exec. rewrite store_eq.
  destruct (route i), other; try congruence;
    unfold on_working_memory, on_short_term, on_long_term;
    match goal with
    | |- context [add ?x ?l] => destruct (add x l)
    end; reflexivity.
Qed.

Lemma store_routed_layer (c : Content) (i : float) (now : datetime)
  (m : memory) :
  store c i now m =
    (fst (add (mkEntry c i now 0) (layer_of (route i) m)),
     exec (store c i now) m) /\
  layer_of (route i) (exec (store c i now) m)
  = exec (add (mkEntry c i now 0)) (layer_of (route i) m).
Proof.
  unfold exec. rewrite store_eq.
  destruct (route i); simpl;
    unfold on_working_memory, on_short_term, on_long_term;
    match goal with
    | |- context [add ?x ?l] => destruct (add x l)
    end; split; reflexivity.
Qed.

Lemma len_ge_true {A : Type} (l : list A) (n : Z) :
  len_ge l n = true <-> n <= Z.of_nat (length l).
Proof. unfold len_ge. rewrite Z.geb_le. reflexivity. Qed.

Lemma len_ge_false {A : Type} (l : list A) (n : Z) :
  len_ge l n = false <-> Z.of_nat (length l) < n.
Proof.
  unfold len_ge. rewrite Z.geb_leb, Z.leb_gt. reflexivity.
Qed.

(** A resident after [add] is the new entry or was a resident before. *)
Lemma add_residents (x : entry) (self : layer) (y : entry) :
  In y (memories (exec (add x) self)) -> y = x \/ In y (memories self).
Proof.
  unfold exec. rewrite add_eq.
  assert (He : forall z, In z (memories (snd (_evict self))) ->
                         In z (memories self)).
  { intros z. rewrite _evict_eq.
    destruct (keys_of score (memories self)); [auto|].
    pose proof (stable_sort_perm key_value (memories self)) as Hp.
    destruct (stable_sort key_value (memories self)); simpl; [easy|].
    intros Hz. eapply Permutation_in; [exact Hp | now right]. }
  destruct (len_ge _ _).
  - destruct (_evict self) as [[e|r] self']; simpl in *.
    + auto.
    + intros Hy. apply in_app_or in Hy.
      destruct Hy as [Hy|[<-|[]]]; auto.
  - simpl. intros Hy. apply in_app_or in Hy.
    destruct Hy as [Hy|[<-|[]]]; auto.
Qed.

(** [add] on a layer of never accessed entries and capacity at least one:
    it returns, dropping the first resident when the layer is full. *)
Lemma add_never_accessed (x : entry) (self : layer) :
  1 <= capacity self ->
  Forall (fun e => access_count e = 0) (memories self) ->
  exists kept,
    add x self =
      (inr tt, {| capacity := capacity self; memories := kept ++ [x] |}) /\
    ((len_ge (memories self) (capacity self) = false /\
      kept = memories self) \/
     (len_ge (memories self) (capacity self) = true /\
      exists evicted, memories self = evicted :: kept)).
Proof.
  intros Hc Hz. rewrite add_eq.
  destruct (len_ge (memories self) (capacity self)) eqn:E.
  - rewrite (_evict_never_accessed self Hz).
    destruct (memories self) as [|r rest] eqn:Em.
    + apply len_ge_true in E. simpl in E. lia.
    + exists rest. split; [reflexivity|]. right. split; [reflexivity|].
      now exists r.
  - exists (memories self). split; [reflexivity|]. now left.
Qed.

Lemma layer_ok_add (which : layer_id) (cap : Z) (x : entry) (self : layer) :
  1 <= cap ->
  layer_ok which cap self ->
  access_count x = 0 -> route (importance x) = which ->
  layer_ok which cap (exec (add x) self).
Proof.
  intros Hcap (Hc & Hs & Hf) Hx Hr.
  assert (Hz : Forall (fun e => access_count e = 0) (memories self))
    by (eapply Forall_impl; [|exact Hf]; now intros e [? _]).
  destruct (add_never_accessed x self ltac:(lia) Hz) as (kept & Ha & Hk).
  unfold exec. rewrite Ha. unfold layer_ok, size in *. simpl.
  split; [exact Hc|]. split.
  - rewrite length_app. simpl.
    destruct Hk as [[E ->]|[E [ev Hm]]].
    + apply len_ge_false in E. lia.
    + rewrite Hm in Hs. simpl in Hs. lia.
  - apply Forall_app. split.
    + destruct Hk as [[E ->]|[E [ev Hm]]]; [exact Hf|].
      rewrite Hm in Hf. now inversion Hf.
    + now repeat constructor.
Qed.

Lemma empty_memory_ok : store_ok (@empty_memory Content).
Proof.
  unfold store_ok, layer_ok, size. simpl.
  repeat split; try reflexivity; try lia; constructor.
Qed.

(** In a state of the store as the calls leave it, [store] lands the entry
    in the layer the thresholds select, and the state stays such a state. *)
Lemma store_ok_step (c : Content) (i : float) (now : datetime) (m : memory) :
  store_ok m ->
  lands_in (route i) c i now m /\ store_ok (exec (store c i now) m).
Proof.
  intros (Hw & Hs & Hl).
  destruct (store_routed_layer c i now m) as [Hst Hex].
  pose proof (store_other_layers c i now m) as Hoth.
  assert (Hcap : exists cap, 1 <= cap /\ layer_ok (route i) cap (layer_of (route i) m)).
  { destruct (route i); simpl; [exists 5 | exists 50 | exists 1000];
      (split; [lia | assumption]). }
  destruct Hcap as (cap & Hcap & Hok).
  assert (Hz : Forall (fun e : entry => access_count e = 0)
                 (memories (layer_of (route i) m))).
  { destruct Hok as (_ & _ & Hf).
    eapply Forall_impl; [|exact Hf]; now intros e [? _]. }
  assert (Hc1 : 1 <= capacity (layer_of (route i) m))
    by (destruct Hok as (-> & _); exact Hcap).
  destruct (add_never_accessed (mkEntry c i now 0) _ Hc1 Hz)
    as (kept & Ha & Hk).
  split.
  - exists (mkEntry c i now 0), (exec (store c i now) m), kept.
    split; [reflexivity|]. split; [now rewrite Hst, Ha|].
    rewrite Hex. unfold exec at 1 2. rewrite Ha. simpl.
    split; [reflexivity|]. split.
    + destruct Hk as [[_ ->]|[_ Hev]]; [now left | now right].
    + split; [reflexivity|]. intros other Hne. now apply Hoth.
  - pose proof (layer_ok_add (route i) cap (mkEntry c i now 0) _
                  Hcap Hok eq_refl eq_refl) as Hnew.
    rewrite <- Hex in Hnew.
    unfold store_ok.
    destruct (route i) eqn:Er; simpl in *.
    + pose proof (Hoth ShortTerm ltac:(discriminate)) as H1.
      pose proof (Hoth LongTerm ltac:(discriminate)) as H2.
      simpl in H1, H2. rewrite H1, H2.
      assert (cap = 5) by (destruct Hok as (Hc & _); destruct Hw as (Hc' & _);
                           congruence).
      subst. auto.
    + pose proof (Hoth Working ltac:(discriminate)) as H1.
      pose proof (Hoth LongTerm ltac:(discriminate)) as H2.
      simpl in H1, H2. rewrite H1, H2.
      assert (cap = 50) by (destruct Hok as (Hc & _); destruct Hs as (Hc' & _);
                            congruence).
      subst. auto.
    + pose proof (Hoth Working ltac:(discriminate)) as H1.
      pose proof (Hoth ShortTerm ltac:(discriminate)) as H2.
      simpl in H1, H2. rewrite H1, H2.
      assert (cap = 1000) by (destruct Hok as (Hc & _); destruct Hl as (Hc' & _);
                              congruence).
      subst. auto.
Qed.

Lemma run_stores_ok (cs : list (store_args Content)) (m : memory) :
  store_ok m -> store_ok (run_stores cs m).
Proof.
  revert m. induction cs as [|c t IH]; intros m H; simpl.
  - exact H.
  - apply IH. now apply store_ok_step.
Qed.

Lemma reachable_ok (m : memory) : reachable m -> store_ok m.
Proof.
  intros (m0 & cs & Hinit & ->). inversion Hinit; subst m0.
  apply run_stores_ok, empty_memory_ok.
Qed.

Lemma produced_layer_never_accessed (self : layer) :
  produced_layer self ->
  Forall (fun e => access_count e = 0) (memories self).
Proof.
  intros [(c & cs & self0 & Hinit & Hcs & ->)|(m & which & Hr & ->)].
  - inversion Hinit; subst self0.
    apply run_calls_never_accessed; [exact Hcs | constructor].
  - apply reachable_ok in Hr.
    destruct Hr as ((_ & _ & Hw) & (_ & _ & Hs) & (_ & _ & Hl)).
    destruct which; simpl;
      (eapply Forall_impl; [|eassumption]; now intros e [? _]).
Qed.

(** In such a layer every score is computed and all scores tie. *)
Lemma produced_layer_scores (self : layer) :
  produced_layer self ->
  keys_of score (memories self) = inr (map key_value (memories self)) /\
  weakly_ordered (map key_value (memories self)) = true.
Proof.
  intros H. apply produced_layer_never_accessed in H.
  destruct (never_accessed_keys _ H) as [Hk Ht].
  split; [exact Hk | now apply weakly_ordered_tied].
Qed.

End StoreFacts.

(* ================================================================== *)
(** * Claims about the store *)

Lemma route_working (i : float) :
  PyFloat.gtb i PyFloat.lit_0_8 = true -> route i = Working.
Proof. unfold route. now intros ->. Qed.

Lemma route_short_term (i : float) :
  PyFloat.gtb i PyFloat.lit_0_5 = true ->
  PyFloat.leb i PyFloat.lit_0_8 = true ->
  route i = ShortTerm.
Proof.
  unfold route. intros -> H.
  now rewrite (PyFloatFacts.leb_gtb_false _ _ H).
Qed.

Lemma route_long_term (i : float) :
  PyFloat.leb i PyFloat.lit_0_5 = true -> route i = LongTerm.
Proof.
  unfold route. intros H.
  rewrite (PyFloatFacts.leb_ltb_not_gtb i PyFloat.lit_0_5 PyFloat.lit_0_8 H)
    by reflexivity.
  now rewrite (PyFloatFacts.leb_gtb_false _ _ H).
Qed.

Lemma route_not_finite (i : float) :
  PyFloat.is_finite i = false ->
  route i = match i with S754_infinity false => Working | _ => LongTerm end.
Proof. destruct i as [s|[|]| |s m e]; simpl; try discriminate; reflexivity. Qed.

(** Without the check of C6, a layer of capacity 0 or less is always "full"
    and empty: every [add] raises [IndexError] from [pop(0)] and the layer
    stays empty. *)
Lemma add_without_capacity {Content : Type} (c : Z) (x : MemoryEntry Content) :
  c <= 0 ->
  add x {| capacity := c; memories := [] |}
    = (inl IndexError, {| capacity := c; memories := [] |}).
Proof.
  intros Hc. rewrite add_eq. simpl.
  assert (E : len_ge (@nil (MemoryEntry Content)) c = true)
    by (apply len_ge_true; simpl; lia).
  rewrite E. reflexivity.
Qed.

(* ================================================================== *)
(** * How the eviction and [add] raise *)

Section AddOutcomes.

Context {Content : Type}.

Local Abbreviation entry := (MemoryEntry Content).
Local Abbreviation layer := (MemoryLayer Content).

Lemma score_raises (y : entry) (e : exn) :
  score y = inl e -> e = OverflowError.
Proof.
  unfold score, PyFloat.of_int.
  destruct (binary_normalize PyFloat.prec PyFloat.emax (access_count y) 0 false);
    intros H; inversion H; reflexivity.
Qed.

Lemma keys_of_raises (l : list entry) (e : exn) :
  keys_of score l = inl e ->
  e = OverflowError /\ exists y, In y l /\ score y = inl OverflowError.
Proof.
  induction l as [|x t IH]; simpl; [discriminate|].
  destruct (score x) as [ex|k] eqn:Ex.
  - intros H. inversion H; subst.
    pose proof (score_raises x e Ex) as ->.
    split; [reflexivity|]. exists x. split; [now left | exact Ex].
  - destruct (keys_of score t) as [et|ks]; [|discriminate].
    intros H. inversion H; subst.
    destruct (IH eq_refl) as (-> & y & Hy & Hs).
    split; [reflexivity|]. exists y. split; [now right | exact Hs].
Qed.

Lemma _evict_raises (self self' : layer) (e : exn) :
  _evict self = (inl e, self') ->
  self' = self /\
  ((e = IndexError /\ memories self = []) \/
   (e = OverflowError /\
    exists y, In y (memories self) /\ score y = inl OverflowError)).
Proof.
  rewrite _evict_eq.
  destruct (keys_of score (memories self)) as [ek|ks] eqn:Ek.
  - intros H. inversion H; subst. split; [reflexivity|]. right.
    now apply keys_of_raises.
  - pose proof (stable_sort_perm key_value (memories self)) as Hp.
    destruct (stable_sort key_value (memories self)) as [|r rest];
      [|discriminate].
    intros H. inversion H; subst.
    apply Permutation_nil in Hp.
    destruct self as [c l]. simpl in *. subst l.
    split; [reflexivity|]. left. now split.
Qed.

End AddOutcomes.

(* ================================================================== *)
(** * Residents and histories *)

Lemma stable_sort_no_descent {B : Type} (kf : B -> float) (l : list B) :
  no_descent kf l = true -> stable_sort kf l = l.
Proof.
  induction l as [|x t IH]; intros H; [reflexivity|].
  destruct t as [|y t'].
  - reflexivity.
  - change (no_descent kf (x :: y :: t'))
      with (negb (PyFloat.ltb (kf y) (kf x)) && no_descent kf (y :: t')) in H.
    apply andb_true_iff in H. destruct H as [Hx Ht].
    change (stable_sort kf (x :: y :: t'))
      with (insert_sorted kf x (stable_sort kf (y :: t'))).
    rewrite (IH Ht). simpl. apply negb_true_iff in Hx. now rewrite Hx.
Qed.


(** What a weak order of the keys comes to: no key is NaN, or no key is
    strictly below another. *)
Lemma weakly_ordered_iff (ks : list float) :
  weakly_ordered ks = true <->
  (forallb (fun k => negb (PyFloat.is_nan k)) ks = true \/
   all_tied ks = true).
Proof.
  split.
  - intros Hw.
    destruct (forallb (fun k => negb (PyFloat.is_nan k)) ks) eqn:En;
      [now left | right].
    assert (Hx : exists x, In x ks /\ PyFloat.is_nan x = true).
    { clear Hw. induction ks as [|k t IH]; [discriminate|].
      simpl in En. apply andb_false_iff in En. destruct En as [Ek|Et].
      - exists k. split; [now left|]. now apply negb_false_iff.
      - destruct (IH Et) as (x & Hx & Hn). exists x. split; [now right | exact Hn]. }
    destruct Hx as (x & Hx & Hn).
    assert (x = PyFloat.nan) as -> by (destruct x; try discriminate; reflexivity).
    unfold all_tied.
    rewrite forallb_forall. intros a Ha.
    rewrite forallb_forall. intros b Hb.
    apply negb_true_iff.
    apply (weakly_ordered_spec ks Hw a PyFloat.nan b Ha Hx Hb).
    + apply PyFloatFacts.ltb_nan_r.
    + apply PyFloatFacts.ltb_nan_l.
  - intros [H|H]; [now apply weakly_ordered_no_nan | now apply weakly_ordered_tied].
Qed.

Section Residents.

Context {Content : Type}.

Local Abbreviation entry := (MemoryEntry Content).
Local Abbreviation layer := (MemoryLayer Content).


(** What a returning eviction did: it returned [None], kept the capacity
    and took one resident out of the list; the layer was not empty and every
    score could be computed. *)
Lemma _evict_returns (self self' : layer) (r : option entry) :
  _evict self = (inr r, self') ->
  r = None /\ capacity self' = capacity self /\
  memories self <> [] /\
  (exists ks, keys_of score (memories self) = inr ks) /\
  exists removed, Permutation (memories self) (removed :: memories self').
Proof.
  rewrite _evict_eq.
  destruct (keys_of score (memories self)) as [e|ks] eqn:Ek; [discriminate|].
  pose proof (stable_sort_perm key_value (memories self)) as Hp.
  destruct (stable_sort key_value (memories self)) as [|x rest];
    [discriminate|].
  intros H. inversion H; subst. simpl.
  repeat split.
  - intros Hm. rewrite Hm in Hp.
    apply Permutation_sym, Permutation_nil in Hp. discriminate.
  - now exists ks.
  - exists x. now symmetry.
Qed.

(** The eviction returns on every non-empty layer whose scores can all be
    computed. *)
Lemma _evict_returns_when (self : layer) (ks : list float) :
  memories self <> [] ->
  keys_of score (memories self) = inr ks ->
  exists self', _evict self = (inr None, self').
Proof.
  intros Hne Hk. rewrite _evict_eq, Hk.
  pose proof (stable_sort_perm key_value (memories self)) as Hp.
  destruct (stable_sort key_value (memories self)) as [|x rest].
  - apply Permutation_nil in Hp. congruence.
  - now eexists.
Qed.



End Residents.

(* ================================================================== *)
(** * The claims *)

(** C1. A layer built with a capacity of at least one never holds more
    entries than its capacity: after each of any sequence of [add] calls
    ([k] counts the calls already made), [size() <= capacity()], and the
    capacity is still the one given at construction. *)
Theorem C1_size_within_capacity {Content : Type}
  (c : Z) (self : MemoryLayer Content) (es : list (MemoryEntry Content))
  (k : nat) :
  1 <= c ->
  MemoryLayer_init c = inr self ->
  let after := run_calls (map Add (firstn k es)) self in
  capacity after = c /\ size after <= capacity after.
Proof.
  intros Hc Hinit after. inversion Hinit; subst self.
  subst after. rewrite run_calls_capacity. simpl. split; [reflexivity|].
  apply (run_calls_size _ {| capacity := c; memories := [] |}); simpl.
  - exact Hc.
  - unfold size. simpl. lia.
Qed.

Lemma C1_size_within_capacity_witness :
  capacity
    (run_calls
       (map Add (firstn 3 [mkEntry 1%nat PyFloat.lit_0_9 0 0;
                           mkEntry 2%nat PyFloat.lit_0_2 0 5;
                           mkEntry 3%nat PyFloat.lit_0_5 0 0]))
       {| capacity := 2; memories := [] |}) = 2 /\
  size
    (run_calls
       (map Add (firstn 3 [mkEntry 1%nat PyFloat.lit_0_9 0 0;
                           mkEntry 2%nat PyFloat.lit_0_2 0 5;
                           mkEntry 3%nat PyFloat.lit_0_5 0 0]))
       {| capacity := 2; memories := [] |})
  <= capacity
       (run_calls
          (map Add (firstn 3 [mkEntry 1%nat PyFloat.lit_0_9 0 0;
                              mkEntry 2%nat PyFloat.lit_0_2 0 5;
                              mkEntry 3%nat PyFloat.lit_0_5 0 0]))
          {| capacity := 2; memories := [] |}).
Proof.
  apply (C1_size_within_capacity 2 {| capacity := 2; memories := [] |}
           [mkEntry 1%nat PyFloat.lit_0_9 0 0;
            mkEntry 2%nat PyFloat.lit_0_2 0 5;
            mkEntry 3%nat PyFloat.lit_0_5 0 0] 3).
  - lia.
  - reflexivity.
Defined.

(** C2. In every state of the store and for every importance,
    [store(content, importance)] returns and puts the new entry in one
    layer, the one the two strict comparisons select, leaving the other two
    as they were: working memory when [importance > 0.8], short-term when
    [0.5 < importance <= 0.8], long-term when [importance <= 0.5]; 0.81 goes
    to working memory, 0.8 to short-term and 0.5 to long-term. *)
Theorem C2_store_routes_by_thresholds {Content : Type}
  (m : HierarchicalMemory Content) (c : Content) (i : float) (now : datetime) :
  reachable m ->
  lands_in (route i) c i now m /\
  (PyFloat.gtb i PyFloat.lit_0_8 = true -> lands_in Working c i now m) /\
  (PyFloat.gtb i PyFloat.lit_0_5 = true ->
   PyFloat.leb i PyFloat.lit_0_8 = true -> lands_in ShortTerm c i now m) /\
  (PyFloat.leb i PyFloat.lit_0_5 = true -> lands_in LongTerm c i now m) /\
  lands_in Working c PyFloat.lit_0_81 now m /\
  lands_in ShortTerm c PyFloat.lit_0_8 now m /\
  lands_in LongTerm c PyFloat.lit_0_5 now m.
Proof.
  intros Hr. apply reachable_ok in Hr.
  pose proof (fun j => proj1 (store_ok_step c j now m Hr)) as H.
  repeat split.
  - apply H.
  - intros Hi. rewrite <- (route_working i Hi). apply H.
  - intros Hi Hj. rewrite <- (route_short_term i Hi Hj). apply H.
  - intros Hi. rewrite <- (route_long_term i Hi). apply H.
  - apply (H PyFloat.lit_0_81).
  - apply (H PyFloat.lit_0_8).
  - apply (H PyFloat.lit_0_5).
Qed.

Lemma C2_store_routes_by_thresholds_witness :
  lands_in (route PyFloat.lit_0_9) 7%nat PyFloat.lit_0_9 0 empty_memory /\
  (PyFloat.gtb PyFloat.lit_0_9 PyFloat.lit_0_8 = true ->
   lands_in Working 7%nat PyFloat.lit_0_9 0 empty_memory) /\
  (PyFloat.gtb PyFloat.lit_0_9 PyFloat.lit_0_5 = true ->
   PyFloat.leb PyFloat.lit_0_9 PyFloat.lit_0_8 = true ->
   lands_in ShortTerm 7%nat PyFloat.lit_0_9 0 empty_memory) /\
  (PyFloat.leb PyFloat.lit_0_9 PyFloat.lit_0_5 = true ->
   lands_in LongTerm 7%nat PyFloat.lit_0_9 0 empty_memory) /\
  lands_in Working 7%nat PyFloat.lit_0_81 0 empty_memory /\
  lands_in ShortTerm 7%nat PyFloat.lit_0_8 0 empty_memory /\
  lands_in LongTerm 7%nat PyFloat.lit_0_5 0 empty_memory.
Proof.
  apply (C2_store_routes_by_thresholds empty_memory 7%nat PyFloat.lit_0_9 0).
  exists empty_memory, []. split; reflexivity.
Defined.

(** C3 as the specification states it, refuted.  A layer of capacity 3 holds
    B (importance 0.2, accessed 5 times, score 1.0), N (importance +infinity,
    never accessed, score NaN) and A (importance 0.9, never accessed, score
    0), in that order.  No score is strictly below the one just before it, so
    the sort moves nothing, and [add] evicts B, although A scores strictly
    below B. *)
Lemma C3_evicts_lowest_score_counterexample :
  score (mkEntry 2%nat PyFloat.lit_0_2 0 5) = inr PyFloat.lit_1_0 /\
  score (mkEntry 4%nat PyFloat.inf 0 0) = inr PyFloat.nan /\
  score (mkEntry 1%nat PyFloat.lit_0_9 0 0) = inr (S754_zero false) /\
  no_descent key_value [mkEntry 2%nat PyFloat.lit_0_2 0 5;
                        mkEntry 4%nat PyFloat.inf 0 0;
                        mkEntry 1%nat PyFloat.lit_0_9 0 0] = true /\
  len_ge [mkEntry 2%nat PyFloat.lit_0_2 0 5;
          mkEntry 4%nat PyFloat.inf 0 0;
          mkEntry 1%nat PyFloat.lit_0_9 0 0] 3 = true /\
  add (mkEntry 3%nat PyFloat.lit_0_5 0 0)
      {| capacity := 3;
         memories := [mkEntry 2%nat PyFloat.lit_0_2 0 5;
                      mkEntry 4%nat PyFloat.inf 0 0;
                      mkEntry 1%nat PyFloat.lit_0_9 0 0] |}
    = (inr tt,
       {| capacity := 3;
          memories := [mkEntry 4%nat PyFloat.inf 0 0;
                       mkEntry 1%nat PyFloat.lit_0_9 0 0;
                       mkEntry 3%nat PyFloat.lit_0_5 0 0] |}) /\
  PyFloat.ltb (key_value (mkEntry 1%nat PyFloat.lit_0_9 0 0))
              (key_value (mkEntry 2%nat PyFloat.lit_0_2 0 5)) = true /\
  ~ (forall y,
       In y [mkEntry 2%nat PyFloat.lit_0_2 0 5;
             mkEntry 4%nat PyFloat.inf 0 0;
             mkEntry 1%nat PyFloat.lit_0_9 0 0] ->
       PyFloat.ltb (key_value y)
                   (key_value (mkEntry 2%nat PyFloat.lit_0_2 0 5)) = false).
Proof.
  do 7 (split; [reflexivity|]).
  intros H.
  specialize (H (mkEntry 1%nat PyFloat.lit_0_9 0 0)
                (or_intror (or_intror (or_introl eq_refl)))).
  vm_compute in H. discriminate.
Qed.

(** C3, amended.  When [add] finds the layer full and not empty, every
    resident's score can be computed and [<] orders the scores weakly, the
    entry it evicts is one that no resident scores strictly below: its
    [importance * access_count] is minimal.  First part: for any such
    residents; [<] orders the scores weakly whenever no score is NaN, and
    there the evicted score is also [<=] every resident's.  Second part:
    every layer the operations of the code produce is such a layer; all its
    scores tie and the entry at the front goes.  Third part, the example:
    with residents A (importance 0.9, never accessed, score 0) and B
    (importance 0.2, accessed 5 times, score 1.0) in a layer of capacity 2,
    adding any third entry evicts A and keeps B, in whichever order A and B
    were inserted.  Last part: [<] orders scores weakly exactly when none of
    them is NaN or none is strictly below another. *)
Theorem C3_evicts_lowest_score {Content : Type} :
  (forall (self : MemoryLayer Content) (new : MemoryEntry Content)
          (ks : list float),
      len_ge (memories self) (capacity self) = true ->
      memories self <> [] ->
      keys_of score (memories self) = inr ks ->
      weakly_ordered ks = true ->
      exists removed rest,
        add new self =
          (inr tt, {| capacity := capacity self; memories := rest ++ [new] |}) /\
        Permutation (memories self) (removed :: rest) /\
        (forall y, In y (memories self) ->
           PyFloat.ltb (key_value y) (key_value removed) = false) /\
        (forallb (fun k => negb (PyFloat.is_nan k)) ks = true ->
         forall y, In y (memories self) ->
           PyFloat.leb (key_value removed) (key_value y) = true))
  /\
  (forall (self : MemoryLayer Content) (new : MemoryEntry Content),
      produced_layer self ->
      len_ge (memories self) (capacity self) = true ->
      memories self <> [] ->
      exists removed rest,
        memories self = removed :: rest /\
        add new self =
          (inr tt, {| capacity := capacity self; memories := rest ++ [new] |}) /\
        (forall y, In y (memories self) ->
           PyFloat.ltb (key_value y) (key_value removed) = false))
  /\
  (forall (a b : Content) (ta tb : datetime) (new : MemoryEntry Content),
      let A := mkEntry a PyFloat.lit_0_9 ta 0 in
      let B := mkEntry b PyFloat.lit_0_2 tb 5 in
      score A = inr (S754_zero false) /\
      score B = inr PyFloat.lit_1_0 /\
      PyFloat.ltb (key_value A) (key_value B) = true /\
      add new {| capacity := 2; memories := [A; B] |} =
        (inr tt, {| capacity := 2; memories := [B; new] |}) /\
      add new {| capacity := 2; memories := [B; A] |} =
        (inr tt, {| capacity := 2; memories := [B; new] |}))
  /\
  (forall ks : list float,
      weakly_ordered ks = true <->
      (forallb (fun k => negb (PyFloat.is_nan k)) ks = true \/
       all_tied ks = true)).
Proof.
  split; [|split; [|split]]; [| | |exact weakly_ordered_iff].
  - intros self new ks Hfull Hne Hk Hw.
    destruct (_evict_removes_minimal self ks Hk Hw Hne)
      as (r & rest & He & Hp & _ & Hmin).
    exists r, rest. rewrite add_eq, Hfull, He. simpl.
    repeat split; auto.
    intros Hnan y Hy.
    rewrite forallb_forall in Hnan.
    assert (Hn : forall z, In z (memories self) ->
                           PyFloat.is_nan (key_value z) = false).
    { intros z Hz. specialize (Hnan (key_value z)).
      rewrite (keys_of_values _ _ Hk) in Hnan.
      specialize (Hnan (in_map _ _ _ Hz)).
      now destruct (PyFloat.is_nan (key_value z)). }
    rewrite PyFloatFacts.leb_not_gtb.
    + now rewrite Hmin.
    + apply Hn. eapply Permutation_in; [symmetry; exact Hp | now left].
    + now apply Hn.
  - intros self new Hp Hfull Hne.
    apply add_full_never_accessed; auto.
    now apply produced_layer_never_accessed.
  - intros a b ta tb new A B. repeat split.
Qed.

(** The example of C3 as an instance of its general part. *)
Lemma C3_evicts_lowest_score_witness :
  let A := mkEntry 1%nat PyFloat.lit_0_9 0 0 in
  let B := mkEntry 2%nat PyFloat.lit_0_2 0 5 in
  let C := mkEntry 3%nat PyFloat.lit_0_5 0 0 in
  exists removed rest,
    add C {| capacity := 2; memories := [B; A] |} =
      (inr tt, {| capacity := 2; memories := rest ++ [C] |}) /\
    Permutation [B; A] (removed :: rest) /\
    (forall y, In y [B; A] ->
       PyFloat.ltb (key_value y) (key_value removed) = false) /\
    (forallb (fun k => negb (PyFloat.is_nan k))
       [PyFloat.lit_1_0; S754_zero false] = true ->
     forall y, In y [B; A] ->
       PyFloat.leb (key_value removed) (key_value y) = true).
Proof.
  intros A B C.
  apply (proj1 (@C3_evicts_lowest_score nat)
           {| capacity := 2; memories := [B; A] |} C
           [PyFloat.lit_1_0; S754_zero false]).
  - reflexivity.
  - discriminate.
  - reflexivity.
  - reflexivity.
Defined.




(** C5 as the specification states it, refuted: [store] with a NaN importance
    raises nothing and the long-term layer grows from 0 to 1 entry. *)
Lemma C5_store_rejects_non_finite_counterexample :
  HierarchicalMemory_init = inr (@empty_memory nat) /\
  PyFloat.is_finite PyFloat.nan = false /\
  store 7%nat PyFloat.nan 0 empty_memory
    = (inr tt,
       {| working_memory := {| capacity := 5; memories := [] |};
          short_term := {| capacity := 50; memories := [] |};
          long_term := {| capacity := 1000;
                          memories := [mkEntry 7%nat PyFloat.nan 0 0] |} |}) /\
  ~ (exists e m', store 7%nat PyFloat.nan 0 empty_memory = (inl e, m')) /\
  size (long_term (exec (store 7%nat PyFloat.nan 0) empty_memory))
    <> size (long_term (@empty_memory nat)).
Proof.
  split; [reflexivity|]. split; [reflexivity|].
  split; [reflexivity|]. split.
  - intros (e & m' & H). vm_compute in H. discriminate.
  - vm_compute. discriminate.
Qed.

(** C5, amended.  In every state the store reaches, an importance that is
    not a finite number is accepted like any other: the constructor builds
    the entry, [store] returns, and the entry lands in working memory when
    the importance is +infinity and in the long-term layer when it is NaN or
    -infinity.  That layer gains the entry at its end: when it was not full
    it keeps all its residents, when it was full it drops its first resident
    and keeps the others; its capacity and the other two layers are as
    before. *)
Theorem C5_store_accepts_non_finite {Content : Type}
  (m : HierarchicalMemory Content) (c : Content) (i : float) (now : datetime) :
  reachable m ->
  PyFloat.is_finite i = false ->
  let which := match i with S754_infinity false => Working | _ => LongTerm end in
  let entry := mkEntry c i now 0 in
  let before := layer_of which m in
  let after := layer_of which (exec (store c i now) m) in
  MemoryEntry_init c i now = inr entry /\
  store c i now m = (inr tt, exec (store c i now) m) /\
  lands_in which c i now m /\
  (len_ge (memories before) (capacity before) = false ->
   memories after = memories before ++ [entry]) /\
  (len_ge (memories before) (capacity before) = true ->
   exists evicted kept,
     memories before = evicted :: kept /\
     memories after = kept ++ [entry]) /\
  capacity after = capacity before /\
  (forall other, other <> which ->
     layer_of other (exec (store c i now) m) = layer_of other m).
Proof.
  intros Hr Hi which entry before after.
  apply reachable_ok in Hr.
  assert (Hroute : route i = which) by apply (route_not_finite i Hi).
  pose proof (proj1 (store_ok_step c i now m Hr)) as Hland.
  rewrite Hroute in Hland.
  destruct (store_routed_layer c i now m) as [Hstore Hlayer].
  rewrite Hroute in Hstore, Hlayer. fold entry before in Hstore, Hlayer.
  assert (Hok : 1 <= capacity before /\
                Forall (fun e => access_count e = 0) (memories before)).
  { destruct Hr as ((Hcw & _ & Hw) & (Hcs & _ & Hs) & (Hcl & _ & Hl)).
    subst before. destruct which; simpl.
    - rewrite Hcw. split; [lia|].
      eapply Forall_impl; [|exact Hw]. now intros e [H _].
    - rewrite Hcs. split; [lia|].
      eapply Forall_impl; [|exact Hs]. now intros e [H _].
    - rewrite Hcl. split; [lia|].
      eapply Forall_impl; [|exact Hl]. now intros e [H _]. }
  destruct Hok as [Hcap Hz].
  destruct (add_never_accessed entry before Hcap Hz) as (kept & Hadd & Hcases).
  assert (Hafter : after = {| capacity := capacity before;
                              memories := kept ++ [entry] |}).
  { subst after. rewrite Hlayer. unfold exec. now rewrite Hadd. }
  split; [reflexivity|]. split.
  { rewrite Hstore at 1. now rewrite Hadd. }
  split; [exact Hland|]. rewrite Hafter. simpl. split; [|split; [|split]].
  - intros Hfull. destruct Hcases as [[_ ->]|[Hf _]]; [reflexivity|congruence].
  - intros Hfull. destruct Hcases as [[Hf _]|[_ [evicted He]]]; [congruence|].
    now exists evicted, kept.
  - reflexivity.
  - intros other Hother. apply store_other_layers. now rewrite Hroute.
Qed.

(** The working memory is full after five entries; [store] with importance
    +infinity then drops its first resident and appends the new entry. *)
Lemma C5_store_accepts_non_finite_witness :
  let m := run_stores [mkStore 7%nat PyFloat.inf 0;
                       mkStore 8%nat PyFloat.lit_0_9 1;
                       mkStore 9%nat PyFloat.lit_0_9 2;
                       mkStore 10%nat PyFloat.lit_0_9 3;
                       mkStore 11%nat PyFloat.lit_0_9 4] empty_memory in
  store 12%nat PyFloat.inf 5 m = (inr tt, exec (store 12%nat PyFloat.inf 5) m) /\
  lands_in Working 12%nat PyFloat.inf 5 m /\
  exists evicted kept,
    memories (layer_of Working m) = evicted :: kept /\
    memories (layer_of Working (exec (store 12%nat PyFloat.inf 5) m))
      = kept ++ [mkEntry 12%nat PyFloat.inf 5 0].
Proof.
  intros m.
  destruct (C5_store_accepts_non_finite m 12%nat PyFloat.inf 5)
    as (_ & Hs & Hl & _ & Hfull & _).
  - exists empty_memory,
      [mkStore 7%nat PyFloat.inf 0;
       mkStore 8%nat PyFloat.lit_0_9 1;
       mkStore 9%nat PyFloat.lit_0_9 2;
       mkStore 10%nat PyFloat.lit_0_9 3;
       mkStore 11%nat PyFloat.lit_0_9 4].
    split; reflexivity.
  - reflexivity.
  - split; [exact Hs|]. split; [exact Hl|]. apply Hfull. reflexivity.
Defined.

(** C6 as the specification states it, refuted: a layer is built with
    capacity 0 and with capacity -3, and no exception is raised. *)
Lemma C6_layer_rejects_capacity_counterexample :
  @MemoryLayer_init nat 0 = inr {| capacity := 0; memories := [] |} /\
  @MemoryLayer_init nat (-3) = inr {| capacity := -3; memories := [] |} /\
  ~ (exists e, @MemoryLayer_init nat 0 = inl e).
Proof.
  repeat split. intros [e H]. discriminate.
Qed.

(** C6, amended. The constructor checks nothing: for every capacity, also 0
    and the negative ones, it returns an empty layer with that capacity. *)
Theorem C6_layer_accepts_any_capacity {Content : Type} (c : Z) :
  @MemoryLayer_init Content c = inr {| capacity := c; memories := [] |}.
Proof. reflexivity. Qed.

(** C7 as the specification states it, refuted: on a layer holding the single
    entry A, the eviction removes A and returns [None], not A. *)
Lemma C7_evict_returns_entry_counterexample :
  _evict {| capacity := 1;
            memories := [mkEntry 1%nat PyFloat.lit_0_9 0 0] |}
    = (inr None, {| capacity := 1; memories := [] |}) /\
  ~ (exists removed self',
       _evict {| capacity := 1;
                 memories := [mkEntry 1%nat PyFloat.lit_0_9 0 0] |}
         = (inr (Some removed), self')).
Proof.
  split; [reflexivity|].
  intros (removed & self' & H). vm_compute in H. discriminate.
Qed.

(** C7, amended.  The eviction never hands the removed entry to its caller:
    the method has no [return], so whenever it returns, the value is [None];
    the capacity is unchanged and one resident has been taken out of the list
    (first part).  It returns exactly on the non-empty layers whose scores
    can all be computed (second part); otherwise it raises and leaves the
    layer as it was, [IndexError] on an empty layer and [OverflowError] when
    the [access_count] of a resident is too large for a float (third part).
    When [<] orders the scores weakly, the entry taken out is the first of
    the sorted list, the one [pop(0)] hands back and the method drops
    (fourth part). *)
Theorem C7_evict_returns_none {Content : Type} (self : MemoryLayer Content) :
  (forall r self',
      _evict self = (inr r, self') ->
      r = None /\
      capacity self' = capacity self /\
      exists removed, Permutation (memories self) (removed :: memories self'))
  /\
  ((exists self', _evict self = (inr None, self')) <->
   (memories self <> [] /\ exists ks, keys_of score (memories self) = inr ks))
  /\
  (forall e self',
      _evict self = (inl e, self') ->
      self' = self /\
      ((e = IndexError /\ memories self = []) \/
       (e = OverflowError /\
        exists y, In y (memories self) /\ score y = inl OverflowError)))
  /\
  (forall ks,
      keys_of score (memories self) = inr ks ->
      weakly_ordered ks = true ->
      memories self <> [] ->
      exists removed rest,
        _evict self =
          (inr None, {| capacity := capacity self; memories := rest |}) /\
        list_pop0 (stable_sort key_value (memories self)) = (inr removed, rest) /\
        (forall y, In y (memories self) ->
           PyFloat.ltb (key_value y) (key_value removed) = false)).
Proof.
  split; [|split; [|split]].
  - intros r self' H.
    destruct (_evict_returns self self' r H) as (Hr & Hc & _ & _ & Hp).
    now repeat split.
  - split.
    + intros [self' H].
      destruct (_evict_returns self self' None H) as (_ & _ & Hne & Hk & _).
      now split.
    + intros [Hne [ks Hk]]. now apply (_evict_returns_when self ks).
  - intros e self'. apply _evict_raises.
  - intros ks Hk Hw Hne.
    pose proof (weakly_ordered_scores _ _ Hk Hw) as Hn.
    destruct (stable_sort_head key_value _ Hn Hne)
      as (l1 & r & l2 & Hl & Hs & H1 & H2).
    exists r, (stable_sort key_value (l1 ++ l2)).
    rewrite _evict_eq, Hk, Hs. split; [reflexivity|]. split; [reflexivity|].
    intros y Hy. rewrite Hl in Hy. apply in_app_or in Hy.
    destruct Hy as [Hy|[<-|Hy]].
    + apply PyFloatFacts.ltb_asym. now apply H1.
    + apply PyFloatFacts.ltb_irrefl.
    + now apply H2.
Qed.

(** A layer of two residents: the eviction returns [None], and the entry
    taken out is the one with the lower score. *)
Lemma C7_evict_returns_none_witness :
  exists removed rest,
    _evict {| capacity := 2;
              memories := [mkEntry 2%nat PyFloat.lit_0_2 0 5;
                           mkEntry 1%nat PyFloat.lit_0_9 0 0] |}
      = (inr None, {| capacity := 2; memories := rest |}) /\
    list_pop0 (stable_sort key_value
                 [mkEntry 2%nat PyFloat.lit_0_2 0 5;
                  mkEntry 1%nat PyFloat.lit_0_9 0 0])
      = (inr removed, rest) /\
    (forall y, In y [mkEntry 2%nat PyFloat.lit_0_2 0 5;
                     mkEntry 1%nat PyFloat.lit_0_9 0 0] ->
       PyFloat.ltb (key_value y) (key_value removed) = false).
Proof.
  apply (proj2 (proj2 (proj2
           (C7_evict_returns_none
              {| capacity := 2;
                 memories := [mkEntry 2%nat PyFloat.lit_0_2 0 5;
                              mkEntry 1%nat PyFloat.lit_0_9 0 0] |})))
           [PyFloat.lit_1_0; S754_zero false]).
  - reflexivity.
  - reflexivity.
  - discriminate.
Defined.

(** C8. A [store] call leaves the two layers it does not select exactly as
    they were (first part, in any state and whatever the outcome); the
    residents of the selected layer afterwards are the new entry and
    residents that layer already had (second part); in every state of the
    store the call returns with the new entry as the last of the selected
    layer (third part); and every resident of a layer is in the layer its
    importance selects, the one it was placed in (fourth part). *)
Theorem C8_store_touches_one_layer {Content : Type} :
  (forall (m : HierarchicalMemory Content) c i now other,
      other <> route i ->
      layer_of other (exec (store c i now) m) = layer_of other m) /\
  (forall (m : HierarchicalMemory Content) c i now y,
      In y (memories (layer_of (route i) (exec (store c i now) m))) ->
      y = mkEntry c i now 0 \/ In y (memories (layer_of (route i) m))) /\
  (forall (m : HierarchicalMemory Content) c i now,
      reachable m -> lands_in (route i) c i now m) /\
  (forall (m : HierarchicalMemory Content) which y,
      reachable m ->
      In y (memories (layer_of which m)) -> route (importance y) = which).
Proof.
  repeat split.
  - intros m c i now other. apply store_other_layers.
  - intros m c i now y.
    rewrite (proj2 (store_routed_layer c i now m)). apply add_residents.
  - intros m c i now Hr. apply reachable_ok in Hr.
    apply (store_ok_step c i now m Hr).
  - intros m which y Hr Hy. apply reachable_ok in Hr.
    destruct Hr as ((_ & _ & Hw) & (_ & _ & Hs) & (_ & _ & Hl)).
    rewrite Forall_forall in Hw, Hs, Hl.
    destruct which; simpl in Hy;
      [apply (Hw y Hy) | apply (Hs y Hy) | apply (Hl y Hy)].
Qed.

Lemma C8_store_touches_one_layer_witness :
  layer_of ShortTerm (exec (store 7%nat PyFloat.lit_0_9 0) empty_memory)
    = layer_of ShortTerm empty_memory /\
  lands_in (route PyFloat.lit_0_9) 7%nat PyFloat.lit_0_9 0 empty_memory.
Proof.
  split.
  - apply (proj1 (@C8_store_touches_one_layer nat)). discriminate.
  - apply (proj1 (proj2 (proj2 (@C8_store_touches_one_layer nat)))).
    exists empty_memory, []. split; reflexivity.
Defined.

(** C9 as the specification states it, refuted.  A layer of capacity 4 gets
    four entries with scores 0.0, 2.0, NaN (importance +infinity, never
    accessed) and 1.0, in that order.  No score is strictly below the one
    just before it, so the sort moves nothing; the eviction removes the first
    entry and leaves the scores 2.0, NaN, 1.0, which are not ascending: 1.0
    comes after 2.0. *)
Lemma C9_eviction_leaves_list_sorted_counterexample :
  run_calls [Add (mkEntry 1%nat PyFloat.lit_0_5 0 0);
             Add (mkEntry 2%nat PyFloat.lit_0_5 0 4);
             Add (mkEntry 3%nat PyFloat.inf 0 0);
             Add (mkEntry 4%nat PyFloat.lit_0_5 0 2)]
            {| capacity := 4; memories := [] |}
    = {| capacity := 4;
         memories := [mkEntry 1%nat PyFloat.lit_0_5 0 0;
                      mkEntry 2%nat PyFloat.lit_0_5 0 4;
                      mkEntry 3%nat PyFloat.inf 0 0;
                      mkEntry 4%nat PyFloat.lit_0_5 0 2] |} /\
  score (mkEntry 1%nat PyFloat.lit_0_5 0 0) = PyFloat.of_int 0 /\
  score (mkEntry 2%nat PyFloat.lit_0_5 0 4) = PyFloat.of_int 2 /\
  score (mkEntry 3%nat PyFloat.inf 0 0) = inr PyFloat.nan /\
  score (mkEntry 4%nat PyFloat.lit_0_5 0 2) = PyFloat.of_int 1 /\
  no_descent key_value [mkEntry 1%nat PyFloat.lit_0_5 0 0;
                        mkEntry 2%nat PyFloat.lit_0_5 0 4;
                        mkEntry 3%nat PyFloat.inf 0 0;
                        mkEntry 4%nat PyFloat.lit_0_5 0 2] = true /\
  _evict {| capacity := 4;
            memories := [mkEntry 1%nat PyFloat.lit_0_5 0 0;
                         mkEntry 2%nat PyFloat.lit_0_5 0 4;
                         mkEntry 3%nat PyFloat.inf 0 0;
                         mkEntry 4%nat PyFloat.lit_0_5 0 2] |}
    = (inr None,
       {| capacity := 4;
          memories := [mkEntry 2%nat PyFloat.lit_0_5 0 4;
                       mkEntry 3%nat PyFloat.inf 0 0;
                       mkEntry 4%nat PyFloat.lit_0_5 0 2] |}) /\
  PyFloat.ltb (key_value (mkEntry 4%nat PyFloat.lit_0_5 0 2))
              (key_value (mkEntry 2%nat PyFloat.lit_0_5 0 4)) = true /\
  ~ ascending key_value [mkEntry 2%nat PyFloat.lit_0_5 0 4;
                         mkEntry 3%nat PyFloat.inf 0 0;
                         mkEntry 4%nat PyFloat.lit_0_5 0 2].
Proof.
  do 8 (split; [reflexivity|]).
  intros H. inversion H as [|x l _ Hall]; subst.
  inversion Hall as [|y l' _ Hall']; subst.
  inversion Hall' as [|z l'' Hz _]; subst.
  vm_compute in Hz. discriminate.
Qed.

(** C9, amended.  The eviction sorts the layer's own list.  Whenever it
    returns, what is left is the residents without the removed one (first
    part).  When every score can be computed and [<] orders the scores
    weakly, as it does whenever no score is NaN, what is left is in ascending
    order of score, not in insertion order (second part); every layer the
    operations of the code produce is such a layer (third part).  Fourth
    part, a layer with distinct scores where the two orders differ: A, B, C
    inserted in that order with scores 1.5, 1.0, 0.5; the eviction removes C
    and leaves B in front of A.  Last part: [<] orders scores weakly exactly
    when none of them is NaN or none is strictly below another. *)
Theorem C9_eviction_leaves_list_sorted {Content : Type} :
  (forall (self self' : MemoryLayer Content) r,
      _evict self = (inr r, self') ->
      exists removed, Permutation (memories self) (removed :: memories self'))
  /\
  (forall (self : MemoryLayer Content) (ks : list float),
      keys_of score (memories self) = inr ks ->
      weakly_ordered ks = true ->
      memories self <> [] ->
      exists removed rest,
        _evict self =
          (inr None, {| capacity := capacity self; memories := rest |}) /\
        Permutation (memories self) (removed :: rest) /\
        ascending key_value rest)
  /\
  (forall (self : MemoryLayer Content),
      produced_layer self ->
      memories self <> [] ->
      exists removed rest,
        _evict self =
          (inr None, {| capacity := capacity self; memories := rest |}) /\
        Permutation (memories self) (removed :: rest) /\
        ascending key_value rest)
  /\
  (let A := mkEntry 1%nat PyFloat.lit_0_5 0 3 in
   let B := mkEntry 2%nat PyFloat.lit_0_5 0 2 in
   let C := mkEntry 3%nat PyFloat.lit_0_5 0 1 in
   PyFloat.ltb (key_value C) (key_value B) = true /\
   PyFloat.ltb (key_value B) (key_value A) = true /\
   run_calls [Add A; Add B; Add C] {| capacity := 3; memories := [] |}
     = {| capacity := 3; memories := [A; B; C] |} /\
   _evict {| capacity := 3; memories := [A; B; C] |}
     = (inr None, {| capacity := 3; memories := [B; A] |}))
  /\
  (forall ks : list float,
      weakly_ordered ks = true <->
      (forallb (fun k => negb (PyFloat.is_nan k)) ks = true \/
       all_tied ks = true)).
Proof.
  split; [|split; [|split; [|split]]]; [| | | |exact weakly_ordered_iff].
  - intros self self' r H.
    now destruct (_evict_returns self self' r H) as (_ & _ & _ & _ & Hp).
  - intros self ks Hk Hw Hne.
    destruct (_evict_removes_minimal self ks Hk Hw Hne)
      as (r & rest & He & Hp & Ha & _).
    now exists r, rest.
  - intros self Hprod Hne.
    destruct (produced_layer_scores self Hprod) as [Hk Hw].
    destruct (_evict_removes_minimal self _ Hk Hw Hne)
      as (r & rest & He & Hp & Ha & _).
    now exists r, rest.
  - repeat split.
Qed.

Lemma C9_eviction_leaves_list_sorted_witness :
  exists removed rest,
    _evict {| capacity := 3;
              memories := [mkEntry 1%nat PyFloat.lit_0_5 0 3;
                           mkEntry 2%nat PyFloat.lit_0_5 0 2;
                           mkEntry 3%nat PyFloat.lit_0_5 0 1] |}
      = (inr None, {| capacity := 3; memories := rest |}) /\
    Permutation [mkEntry 1%nat PyFloat.lit_0_5 0 3;
                 mkEntry 2%nat PyFloat.lit_0_5 0 2;
                 mkEntry 3%nat PyFloat.lit_0_5 0 1] (removed :: rest) /\
    ascending key_value rest.
Proof.
  apply (proj1 (proj2 (@C9_eviction_leaves_list_sorted nat))
           {| capacity := 3;
              memories := [mkEntry 1%nat PyFloat.lit_0_5 0 3;
                           mkEntry 2%nat PyFloat.lit_0_5 0 2;
                           mkEntry 3%nat PyFloat.lit_0_5 0 1] |}
           (map key_value [mkEntry 1%nat PyFloat.lit_0_5 0 3;
                           mkEntry 2%nat PyFloat.lit_0_5 0 2;
                           mkEntry 3%nat PyFloat.lit_0_5 0 1])).
  - reflexivity.
  - reflexivity.
  - discriminate.
Defined.

(** C10 as stated, refuted: after [store] with importance +infinity and four
    more calls the working memory is full, so the next [add] evicts, and the
    scores that eviction sorts by are NaN for the first resident and 0 for
    the others; NaN is not equal to 0. *)
Lemma C10_scores_all_zero_counterexample :
  HierarchicalMemory_init = inr (@empty_memory nat) /\
  memories (working_memory
              (run_stores [mkStore 7%nat PyFloat.inf 0;
                           mkStore 8%nat PyFloat.lit_0_9 1;
                           mkStore 9%nat PyFloat.lit_0_9 2;
                           mkStore 10%nat PyFloat.lit_0_9 3;
                           mkStore 11%nat PyFloat.lit_0_9 4] empty_memory))
    = [mkEntry 7%nat PyFloat.inf 0 0;
       mkEntry 8%nat PyFloat.lit_0_9 1 0;
       mkEntry 9%nat PyFloat.lit_0_9 2 0;
       mkEntry 10%nat PyFloat.lit_0_9 3 0;
       mkEntry 11%nat PyFloat.lit_0_9 4 0] /\
  len_ge [mkEntry 7%nat PyFloat.inf 0 0;
          mkEntry 8%nat PyFloat.lit_0_9 1 0;
          mkEntry 9%nat PyFloat.lit_0_9 2 0;
          mkEntry 10%nat PyFloat.lit_0_9 3 0;
          mkEntry 11%nat PyFloat.lit_0_9 4 0] 5 = true /\
  keys_of score [mkEntry 7%nat PyFloat.inf 0 0;
                 mkEntry 8%nat PyFloat.lit_0_9 1 0;
                 mkEntry 9%nat PyFloat.lit_0_9 2 0;
                 mkEntry 10%nat PyFloat.lit_0_9 3 0;
                 mkEntry 11%nat PyFloat.lit_0_9 4 0]
    = inr [PyFloat.nan; S754_zero false; S754_zero false;
           S754_zero false; S754_zero false] /\
  PyFloat.eqb PyFloat.nan (S754_zero false) = false /\
  ~ (forall k, score (mkEntry 7%nat PyFloat.inf 0 0) = inr k ->
               PyFloat.eqb k (S754_zero false) = true).
Proof.
  repeat split. intros H. specialize (H PyFloat.nan eq_refl). discriminate.
Qed.

(** C10, amended. No operation changes [access_count]: in every layer that
    construction, [add], eviction and [store] can produce, every resident has
    [access_count = 0]; its score is [importance * 0.0], which equals 0 when
    the importance is finite and is NaN when it is infinite or NaN; no
    resident scores strictly below another; and the eviction removes the
    entry at the front of the list (raising [IndexError] on an empty one). *)
Theorem C10_never_accessed {Content : Type} (self : MemoryLayer Content) :
  produced_layer self ->
  Forall (fun e => access_count e = 0) (memories self) /\
  (forall e, In e (memories self) ->
     score e = inr (PyFloat.mul (importance e) (S754_zero false)) /\
     (PyFloat.is_finite (importance e) = true ->
      PyFloat.eqb (key_value e) (S754_zero false) = true) /\
     (PyFloat.is_finite (importance e) = false ->
      key_value e = PyFloat.nan)) /\
  (forall a b, In a (memories self) -> In b (memories self) ->
     PyFloat.ltb (key_value a) (key_value b) = false) /\
  _evict self =
    match memories self with
    | [] => (inl IndexError, self)
    | _ :: rest => (inr None, {| capacity := capacity self; memories := rest |})
    end.
Proof.
  intros H.
  pose proof (produced_layer_never_accessed self H) as Hz.
  split; [exact Hz|]. rewrite Forall_forall in Hz. split; [|split].
  - intros e He.
    destruct (score_never_accessed e (Hz e He)) as (Hs & Hk & _).
    split; [exact Hs|]. rewrite Hk.
    split; intros Hf; destruct (importance e) as [s|s| |s mm ee];
      simpl in *; try discriminate; reflexivity.
  - intros a b Ha Hb. apply never_accessed_tied; auto.
  - apply _evict_never_accessed. now apply Forall_forall.
Qed.

Lemma C10_never_accessed_witness :
  Forall (fun e => access_count e = 0)
    (memories (layer_of Working
                 (run_stores [mkStore 7%nat PyFloat.inf 0;
                              mkStore 8%nat PyFloat.lit_0_9 1] empty_memory))) /\
  _evict (layer_of Working
            (run_stores [mkStore 7%nat PyFloat.inf 0;
                         mkStore 8%nat PyFloat.lit_0_9 1] empty_memory))
    = (inr None,
       {| capacity := 5; memories := [mkEntry 8%nat PyFloat.lit_0_9 1 0] |}).
Proof.
  pose proof (C10_never_accessed
                (layer_of Working
                   (run_stores [mkStore 7%nat PyFloat.inf 0;
                                mkStore 8%nat PyFloat.lit_0_9 1] empty_memory)))
    as H.
  destruct H as (Hz & _ & _ & He).
  - right.
    exists (run_stores [mkStore 7%nat PyFloat.inf 0;
                        mkStore 8%nat PyFloat.lit_0_9 1] empty_memory), Working.
    split; [|reflexivity].
    exists empty_memory,
      [mkStore 7%nat PyFloat.inf 0; mkStore 8%nat PyFloat.lit_0_9 1].
    split; reflexivity.
  - split; [exact Hz | exact He].
Defined.

(* ================================================================== *)
(** * Further properties of the layer *)

(** X1. [add] is all or nothing: when it raises, the layer is exactly as it
    was and the entry is not stored.  It raises only on a full layer:
    [IndexError] when the layer is full while empty, which needs a capacity
    of 0 or less, and [OverflowError] when the [access_count] of a resident
    is too large for a float. *)
Theorem X1_add_raises_unchanged {Content : Type}
  (x : MemoryEntry Content) (self self' : MemoryLayer Content) (e : exn) :
  add x self = (inl e, self') ->
  self' = self /\
  len_ge (memories self) (capacity self) = true /\
  ((e = IndexError /\ memories self = [] /\ capacity self <= 0) \/
   (e = OverflowError /\
    exists y, In y (memories self) /\ score y = inl OverflowError)).
Proof.
  rewrite add_eq.
  destruct (len_ge (memories self) (capacity self)) eqn:Hfull;
    [|discriminate].
  destruct (_evict self) as [[ex|r] s1] eqn:He; [|discriminate].
  intros H. inversion H; subst.
  destruct (_evict_raises _ _ _ He) as (-> & [[-> Hm]|[-> Hy]]).
  - split; [reflexivity|]. split; [reflexivity|]. left.
    split; [reflexivity|]. split; [exact Hm|].
    apply len_ge_true in Hfull. rewrite Hm in Hfull. simpl in Hfull. lia.
  - split; [reflexivity|]. split; [reflexivity|]. now right.
Qed.

Lemma X1_add_raises_unchanged_witness :
  @mkLayer nat 0 [] = @mkLayer nat 0 [] /\
  len_ge (@nil (MemoryEntry nat)) 0 = true /\
  ((IndexError = IndexError /\ @nil (MemoryEntry nat) = [] /\ 0 <= 0) \/
   (IndexError = OverflowError /\
    exists y, In y (@nil (MemoryEntry nat)) /\ score y = inl OverflowError)).
Proof.
  apply (X1_add_raises_unchanged (mkEntry 1%nat PyFloat.lit_0_9 0 0)
           {| capacity := 0; memories := [] |}
           {| capacity := 0; memories := [] |} IndexError).
  reflexivity.
Defined.

(** X2. When [add] returns, the capacity is unchanged, the new entry is the
    last of the list, and the size has grown by one if the layer was not
    full and is the same if it was: a full layer trades one resident for the
    new entry. *)
Theorem X2_add_returns_size {Content : Type}
  (x : MemoryEntry Content) (self self' : MemoryLayer Content) :
  add x self = (inr tt, self') ->
  capacity self' = capacity self /\
  (exists kept, memories self' = kept ++ [x]) /\
  size self' =
    if len_ge (memories self) (capacity self) then size self
    else size self + 1.
Proof.
  rewrite add_eq. unfold size.
  destruct (len_ge (memories self) (capacity self)).
  - pose proof (_evict_returns_length self) as Hl.
    pose proof (_evict_capacity self) as Hc. unfold exec in Hc.
    destruct (_evict self) as [[ex|r] s1]; [discriminate|].
    intros H. inversion H; subst. simpl in *.
    specialize (Hl _ _ eq_refl).
    split; [exact Hc|]. split; [now exists (memories s1)|].
    rewrite length_app. simpl. lia.
  - intros H. inversion H; subst. simpl.
    split; [reflexivity|]. split; [now exists (memories self)|].
    rewrite length_app. simpl. lia.
Qed.

Lemma X2_add_returns_size_witness :
  capacity {| capacity := 1; memories := [mkEntry 2%nat PyFloat.lit_0_5 0 0] |}
    = capacity {| capacity := 1;
                  memories := [mkEntry 1%nat PyFloat.lit_0_9 0 0] |} /\
  (exists kept,
      memories {| capacity := 1;
                  memories := [mkEntry 2%nat PyFloat.lit_0_5 0 0] |}
      = kept ++ [mkEntry 2%nat PyFloat.lit_0_5 0 0]) /\
  size {| capacity := 1; memories := [mkEntry 2%nat PyFloat.lit_0_5 0 0] |} =
    if len_ge [mkEntry 1%nat PyFloat.lit_0_9 0 0] 1
    then size {| capacity := 1;
                 memories := [mkEntry 1%nat PyFloat.lit_0_9 0 0] |}
    else size {| capacity := 1;
                 memories := [mkEntry 1%nat PyFloat.lit_0_9 0 0] |} + 1.
Proof.
  apply (X2_add_returns_size (mkEntry 2%nat PyFloat.lit_0_5 0 0)
           {| capacity := 1; memories := [mkEntry 1%nat PyFloat.lit_0_9 0 0] |}
           {| capacity := 1; memories := [mkEntry 2%nat PyFloat.lit_0_5 0 0] |}).
  reflexivity.
Defined.

(** X3. A layer built with a capacity of 0 or less stores nothing: every
    [add] raises [IndexError], and after any sequence of [add] calls the
    layer is still the empty layer that was built. *)
Theorem X3_no_capacity_stores_nothing {Content : Type}
  (c : Z) (self0 : MemoryLayer Content) (es : list (MemoryEntry Content)) :
  c <= 0 ->
  MemoryLayer_init c = inr self0 ->
  run_calls (map Add es) self0 = self0 /\
  forall x, add x (run_calls (map Add es) self0)
            = (inl IndexError, self0).
Proof.
  intros Hc Hinit. inversion Hinit; subst self0.
  assert (Hrun : run_calls (map Add es) {| capacity := c; memories := [] |}
                 = {| capacity := c; memories := [] |}).
  { induction es as [|x t IH]; simpl; [reflexivity|].
    unfold exec. simpl. now rewrite (add_without_capacity c x Hc). }
  split; [exact Hrun|].
  intros x. rewrite Hrun. now apply add_without_capacity.
Qed.

Lemma X3_no_capacity_stores_nothing_witness :
  run_calls (map Add [mkEntry 1%nat PyFloat.lit_0_9 0 0;
                      mkEntry 2%nat PyFloat.lit_0_5 0 0])
            {| capacity := 0; memories := [] |}
    = {| capacity := 0; memories := [] |} /\
  forall x, add x (run_calls (map Add [mkEntry 1%nat PyFloat.lit_0_9 0 0;
                                       mkEntry 2%nat PyFloat.lit_0_5 0 0])
                             {| capacity := 0; memories := [] |})
            = (inl IndexError, {| capacity := 0; memories := [] |}).
Proof.
  apply (X3_no_capacity_stores_nothing 0 {| capacity := 0; memories := [] |}
           [mkEntry 1%nat PyFloat.lit_0_9 0 0;
            mkEntry 2%nat PyFloat.lit_0_5 0 0]).
  - lia.
  - reflexivity.
Defined.

(* ================================================================== *)
(** * A layer of never accessed entries is a window on its history *)

Lemma lastn_all {A : Type} (n : nat) (l : list A) :
  (length l <= n)%nat -> lastn n l = l.
Proof.
  intros H. unfold lastn.
  replace (length l - n)%nat with 0%nat by lia. reflexivity.
Qed.

Lemma lastn_cons {A : Type} (n : nat) (a : A) (l : list A) :
  (n <= length l)%nat -> lastn n (a :: l) = lastn n l.
Proof.
  intros H. unfold lastn. simpl length.
  replace (S (length l) - n)%nat with (S (length l - n)) by lia.
  reflexivity.
Qed.


Lemma lastn_length {A : Type} (n : nat) (l : list A) :
  length (lastn n l) = Nat.min n (length l).
Proof. unfold lastn. rewrite length_skipn. lia. Qed.


Section Window.

Context {Content : Type}.

Local Abbreviation entry := (MemoryEntry Content).
Local Abbreviation layer := (MemoryLayer Content).

(** Adding never accessed entries to a layer of such entries that is within
    its capacity leaves the last [capacity] of residents and new entries. *)
Lemma run_adds_window (es : list entry) (self : layer) :
  1 <= capacity self ->
  Forall (fun e => access_count e = 0) (memories self) ->
  (length (memories self) <= Z.to_nat (capacity self))%nat ->
  Forall (fun e => access_count e = 0) es ->
  run_calls (map Add es) self =
    {| capacity := capacity self;
       memories := lastn (Z.to_nat (capacity self)) (memories self ++ es) |}.
Proof.
  revert self. induction es as [|x t IH]; intros self Hc Hz Hl Hes; simpl.
  - rewrite app_nil_r, lastn_all by exact Hl. now destruct self.
  - inversion Hes as [|? ? Hx Ht]; subst.
    destruct (add_never_accessed x self Hc Hz) as (kept & Ha & Hk).
    unfold exec. rewrite Ha. simpl.
    rewrite IH; simpl; auto.
    + f_equal. rewrite <- app_assoc. simpl.
      destruct Hk as [[_ ->]|[Hfull [ev Hm]]]; [reflexivity|].
      rewrite Hm. simpl. symmetry. apply lastn_cons.
      apply len_ge_true in Hfull. rewrite Hm in Hl, Hfull. simpl in Hl, Hfull.
      rewrite length_app. simpl. lia.
    + apply Forall_app. split; [|now constructor].
      destruct Hk as [[_ ->]|[_ [ev Hm]]]; [exact Hz|].
      rewrite Hm in Hz. now inversion Hz.
    + rewrite length_app. simpl.
      destruct Hk as [[Hnf ->]|[_ [ev Hm]]].
      * apply len_ge_false in Hnf. lia.
      * rewrite Hm in Hl. simpl in Hl. lia.
Qed.

Lemma constructed_never_accessed (es : list entry) :
  Forall constructed es -> Forall (fun e => access_count e = 0) es.
Proof.
  intros H. eapply Forall_impl; [|exact H].
  intros e He. now apply constructed_iff.
Qed.

Lemma run_adds_window_init (c : Z) (es : list entry) :
  1 <= c ->
  Forall constructed es ->
  run_calls (map Add es) {| capacity := c; memories := [] |} =
    {| capacity := c; memories := lastn (Z.to_nat c) es |}.
Proof.
  intros Hc Hes.
  rewrite run_adds_window; simpl; auto.
  - lia.
  - now apply constructed_never_accessed.
Qed.

End Window.

(** X4. A layer is a sliding window: after any sequence of [add] calls with
    entries as the constructor builds them, a layer of capacity [c >= 1]
    holds the last [c] entries added (all of them while there are fewer), in
    the order they were added. *)
Theorem X4_layer_holds_last_entries {Content : Type}
  (c : Z) (self0 : MemoryLayer Content) (es : list (MemoryEntry Content)) :
  1 <= c ->
  MemoryLayer_init c = inr self0 ->
  Forall constructed es ->
  memories (run_calls (map Add es) self0) = lastn (Z.to_nat c) es.
Proof.
  intros Hc Hinit Hes. inversion Hinit; subst self0.
  now rewrite run_adds_window_init.
Qed.

Lemma X4_layer_holds_last_entries_witness :
  memories (run_calls (map Add [mkEntry 1%nat PyFloat.lit_0_9 0 0;
                                mkEntry 2%nat PyFloat.lit_0_1 1 0;
                                mkEntry 3%nat PyFloat.lit_0_5 2 0])
                      {| capacity := 2; memories := [] |})
  = lastn (Z.to_nat 2) [mkEntry 1%nat PyFloat.lit_0_9 0 0;
                        mkEntry 2%nat PyFloat.lit_0_1 1 0;
                        mkEntry 3%nat PyFloat.lit_0_5 2 0].
Proof.
  apply (X4_layer_holds_last_entries 2 {| capacity := 2; memories := [] |}).
  - lia.
  - reflexivity.
  - repeat constructor; eexists _, _, _; reflexivity.
Defined.



(* ================================================================== *)
(** * The store is three independent layers *)

Lemma layer_id_eqb_eq (a b : layer_id) : layer_id_eqb a b = true <-> a = b.
Proof. destruct a, b; simpl; split; intros H; congruence. Qed.

Section StoreHistory.

Context {Content : Type}.

Local Abbreviation memory := (HierarchicalMemory Content).

Lemma store_entry_of (a : store_args Content) (m : memory) :
  store (arg_content a) (arg_importance a) (arg_now a) m =
    match route (arg_importance a) with
    | Working => on_working_memory (add (entry_of a)) m
    | ShortTerm => on_short_term (add (entry_of a)) m
    | LongTerm => on_long_term (add (entry_of a)) m
    end.
Proof. apply store_eq. Qed.

(** What a sequence of [store] calls does to one layer is what adding the
    entries routed to it does, in any state of the store. *)
Lemma run_stores_layer (which : layer_id) (cs : list (store_args Content))
  (m : memory) :
  layer_of which (run_stores cs m)
  = run_calls (map Add (routed which cs)) (layer_of which m).
Proof.
  revert m. induction cs as [|a t IH]; intros m; simpl.
  - reflexivity.
  - rewrite IH. unfold routed. simpl.
    destruct (layer_id_eqb (route (arg_importance a)) which) eqn:E.
    + apply layer_id_eqb_eq in E. subst which. simpl.
      now rewrite (proj2 (store_routed_layer _ _ _ m)).
    + rewrite store_other_layers; [reflexivity|].
      intros ->. destruct (route (arg_importance a)); discriminate.
Qed.

Lemma routed_constructed (which : layer_id) (cs : list (store_args Content)) :
  Forall constructed (routed which cs).
Proof.
  unfold routed. apply Forall_forall. intros e He.
  apply in_map_iff in He. destruct He as (a & <- & _).
  exists (arg_content a), (arg_importance a), (arg_now a). reflexivity.
Qed.

End StoreHistory.

(** X6. The three layers do not interact: in any state of the store, the
    state of a layer after a sequence of [store] calls is what [add] of the
    entries whose importance selects that layer, in call order, makes of the
    layer; calls routed elsewhere leave no trace in it, so two sequences of
    calls with the same calls for a layer leave that layer the same. *)
Theorem X6_layers_are_independent {Content : Type}
  (which : layer_id) (m : HierarchicalMemory Content) :
  (forall cs : list (store_args Content),
      layer_of which (run_stores cs m)
      = run_calls (map Add (routed which cs)) (layer_of which m)) /\
  (forall cs cs' : list (store_args Content),
      routed which cs = routed which cs' ->
      layer_of which (run_stores cs m) = layer_of which (run_stores cs' m)).
Proof.
  split.
  - intros cs. apply run_stores_layer.
  - intros cs cs' H. rewrite !run_stores_layer. now rewrite H.
Qed.

Lemma X6_layers_are_independent_witness :
  layer_of LongTerm
    (run_stores [mkStore 1%nat PyFloat.lit_0_9 0;
                 mkStore 2%nat PyFloat.lit_0_1 1] empty_memory)
  = layer_of LongTerm
      (run_stores [mkStore 2%nat PyFloat.lit_0_1 1;
                   mkStore 3%nat PyFloat.lit_0_8 2] empty_memory).
Proof.
  apply (proj2 (X6_layers_are_independent LongTerm (@empty_memory nat))).
  reflexivity.
Defined.

(** X7. After any sequence of [store] calls on a new store, working memory
    holds the last 5 entries stored with importance above 0.8, short-term
    the last 50 with importance above 0.5 and not above 0.8, long-term the
    last 1000 of the others, each in call order, with the content,
    importance and clock reading of its call and [access_count = 0]; so the
    size of a layer is the number of calls routed to it, capped by its
    capacity. *)
Theorem X7_store_keeps_last_routed {Content : Type}
  (m0 : HierarchicalMemory Content) (cs : list (store_args Content))
  (which : layer_id) :
  HierarchicalMemory_init = inr m0 ->
  memories (layer_of which (run_stores cs m0))
    = lastn (capacity_of which) (routed which cs) /\
  capacity (layer_of which (run_stores cs m0)) = Z.of_nat (capacity_of which) /\
  size (layer_of which (run_stores cs m0))
    = Z.of_nat (Nat.min (capacity_of which) (length (routed which cs))).
Proof.
  intros Hinit.
  assert (m0 = empty_memory) as -> by (inversion Hinit; reflexivity).
  rewrite run_stores_layer.
  assert (H : run_calls (map Add (routed which cs)) (layer_of which empty_memory)
              = {| capacity := Z.of_nat (capacity_of which);
                   memories := lastn (capacity_of which) (routed which cs) |}).
  { destruct which; simpl;
      rewrite run_adds_window_init by (try lia; apply routed_constructed);
      reflexivity. }
  rewrite H. unfold size. simpl. rewrite lastn_length. auto.
Qed.

Lemma X7_store_keeps_last_routed_witness :
  memories (layer_of Working
              (run_stores [mkStore 1%nat PyFloat.lit_0_9 0;
                           mkStore 2%nat PyFloat.lit_0_5 1;
                           mkStore 3%nat PyFloat.inf 2] empty_memory))
    = lastn (capacity_of Working)
        (routed Working [mkStore 1%nat PyFloat.lit_0_9 0;
                         mkStore 2%nat PyFloat.lit_0_5 1;
                         mkStore 3%nat PyFloat.inf 2]) /\
  capacity (layer_of Working
              (run_stores [mkStore 1%nat PyFloat.lit_0_9 0;
                           mkStore 2%nat PyFloat.lit_0_5 1;
                           mkStore 3%nat PyFloat.inf 2] empty_memory))
    = Z.of_nat (capacity_of Working) /\
  size (layer_of Working
          (run_stores [mkStore 1%nat PyFloat.lit_0_9 0;
                       mkStore 2%nat PyFloat.lit_0_5 1;
                       mkStore 3%nat PyFloat.inf 2] empty_memory))
    = Z.of_nat (Nat.min (capacity_of Working)
                  (length (routed Working [mkStore 1%nat PyFloat.lit_0_9 0;
                                           mkStore 2%nat PyFloat.lit_0_5 1;
                                           mkStore 3%nat PyFloat.inf 2]))).
Proof.
  apply (X7_store_keeps_last_routed empty_memory
           [mkStore 1%nat PyFloat.lit_0_9 0;
            mkStore 2%nat PyFloat.lit_0_5 1;
            mkStore 3%nat PyFloat.inf 2] Working).
  reflexivity.
Defined.

(* ================================================================== *)
(** * Repeated evictions *)

Lemma stable_sort_of_ascending {B : Type} (kf : B -> float) (l : list B) :
  ascending kf l -> stable_sort kf l = l.
Proof.
  unfold ascending. induction l as [|x t IH]; intros H; simpl.
  - reflexivity.
  - inversion H as [|? ? Ht Hx]; subst. rewrite IH by exact Ht.
    destruct t as [|y t']; simpl; [reflexivity|].
    inversion Hx as [|? ? Hy _]; subst. now rewrite Hy.
Qed.

Section RepeatedEviction.

Context {Content : Type}.

Local Abbreviation entry := (MemoryEntry Content).
Local Abbreviation layer := (MemoryLayer Content).

Lemma keys_of_computed (l : list entry) (ks : list float) (x : entry) :
  keys_of score l = inr ks -> In x l -> exists k, score x = inr k.
Proof.
  intros Hk Hx. exists (key_value x). now apply (keys_of_score l ks).
Qed.

(** On a sorted list each eviction drops the first entry and sorts nothing. *)
Lemma run_evicts_ascending (k : nat) (c : Z) (l : list entry) :
  (forall x, In x l -> exists kx, score x = inr kx) ->
  ascending key_value l ->
  run_calls (repeat Evict k) {| capacity := c; memories := l |}
  = {| capacity := c; memories := skipn k l |}.
Proof.
  revert l. induction k as [|k IH]; intros l Hs Ha; simpl.
  - reflexivity.
  - unfold exec, bind, ret. rewrite _evict_eq. simpl.
    rewrite (keys_of_ok l Hs), (stable_sort_of_ascending _ _ Ha).
    destruct l as [|r rest]; simpl.
    + rewrite IH; [now rewrite skipn_nil | easy | constructor].
    + apply IH.
      * intros x Hx. apply Hs. now right.
      * unfold ascending in *. now inversion Ha.
Qed.

End RepeatedEviction.

(** X8. Evictions take the residents in ascending order of score: after
    [k >= 1] evictions in a row on a layer whose scores [<] orders weakly,
    the layer holds its stably sorted residents without the first [k] (none
    when [k] exceeds their number; the evictions on the emptied layer raise
    [IndexError] and change nothing). *)
Theorem X8_evictions_take_lowest_first {Content : Type}
  (self : MemoryLayer Content) (ks : list float) (k : nat) :
  keys_of score (memories self) = inr ks ->
  weakly_ordered ks = true ->
  (1 <= k)%nat ->
  run_calls (repeat Evict k) self
  = {| capacity := capacity self;
       memories := skipn k (stable_sort key_value (memories self)) |}.
Proof.
  intros Hk Hw Hpos. destruct k as [|k]; [lia|]. simpl.
  unfold exec, bind, ret. rewrite _evict_eq, Hk.
  pose proof (stable_sort_ascending key_value _
                (weakly_ordered_scores _ _ Hk Hw)) as Ha.
  assert (Hs : forall x, In x (stable_sort key_value (memories self)) ->
                         exists kx, score x = inr kx).
  { intros x Hx. apply (keys_of_computed _ _ _ Hk).
    now apply (stable_sort_in key_value). }
  destruct (stable_sort key_value (memories self)) as [|r rest]; simpl.
  - rewrite run_evicts_ascending; [now rewrite skipn_nil | easy | constructor].
  - apply run_evicts_ascending.
    + intros x Hx. apply Hs. now right.
    + unfold ascending in *. now inversion Ha.
Qed.

Lemma X8_evictions_take_lowest_first_witness :
  run_calls (repeat Evict 2)
    {| capacity := 3;
       memories := [mkEntry 1%nat PyFloat.lit_0_5 0 3;
                    mkEntry 2%nat PyFloat.lit_0_5 0 1;
                    mkEntry 3%nat PyFloat.lit_0_5 0 2] |}
  = {| capacity := 3;
       memories :=
         skipn 2 (stable_sort key_value
                    [mkEntry 1%nat PyFloat.lit_0_5 0 3;
                     mkEntry 2%nat PyFloat.lit_0_5 0 1;
                     mkEntry 3%nat PyFloat.lit_0_5 0 2]) |}.
Proof.
  apply (X8_evictions_take_lowest_first
           {| capacity := 3;
              memories := [mkEntry 1%nat PyFloat.lit_0_5 0 3;
                           mkEntry 2%nat PyFloat.lit_0_5 0 1;
                           mkEntry 3%nat PyFloat.lit_0_5 0 2] |}
           (map key_value [mkEntry 1%nat PyFloat.lit_0_5 0 3;
                           mkEntry 2%nat PyFloat.lit_0_5 0 1;
                           mkEntry 3%nat PyFloat.lit_0_5 0 2]) 2).
  - reflexivity.
  - reflexivity.
  - lia.
Defined.

(* ================================================================== *)
(** * What the layer never reads *)

Section NeverRead.

Context {C D : Type}.
Variable f : MemoryEntry C -> MemoryEntry D.
Hypothesis f_keeps : keeps_score f.

Lemma score_keeps (e : MemoryEntry C) : score (f e) = score e.
Proof.
  unfold score. destruct (f_keeps e) as [-> ->]. reflexivity.
Qed.

Lemma key_value_keeps (e : MemoryEntry C) : key_value (f e) = key_value e.
Proof. unfold key_value. now rewrite score_keeps. Qed.

Lemma keys_of_keeps (l : list (MemoryEntry C)) :
  keys_of score (map f l) = keys_of score l.
Proof.
  induction l as [|x t IH]; simpl; [reflexivity|].
  now rewrite score_keeps, IH.
Qed.

Lemma _evict_map_layer (self : MemoryLayer C) :
  _evict (map_layer f self) =
    (match fst (_evict self) with
     | inl e => inl e
     | inr _ => inr None
     end, map_layer f (snd (_evict self))).
Proof.
  rewrite !_evict_eq. unfold map_layer at 1. simpl.
  rewrite keys_of_keeps.
  destruct (keys_of score (memories self)); [reflexivity|].
  rewrite (stable_sort_map f key_value).
  rewrite (stable_sort_ext (fun a => key_value (f a)) key_value)
    by (intros; apply key_value_keeps).
  now destruct (stable_sort key_value (memories self)).
Qed.

Lemma add_map_layer (x : MemoryEntry C) (self : MemoryLayer C) :
  add (f x) (map_layer f self)
  = (fst (add x self), map_layer f (snd (add x self))).
Proof.
  rewrite !add_eq. unfold map_layer at 1 2. simpl.
  unfold len_ge. rewrite length_map.
  destruct (Z.of_nat (length (memories self)) >=? capacity self).
  - change {| capacity := capacity self; memories := map f (memories self) |}
      with (map_layer f self).
    rewrite _evict_map_layer.
    destruct (_evict self) as [[ex|r] s1]; simpl; [reflexivity|].
    unfold map_layer. simpl. now rewrite map_app.
  - unfold map_layer. simpl. now rewrite map_app.
Qed.

Lemma run_calls_map_layer (cs : list (layer_call C)) (self : MemoryLayer C) :
  run_calls (map (map_call f) cs) (map_layer f self)
  = map_layer f (run_calls cs self).
Proof.
  revert self. induction cs as [|c t IH]; intros self; simpl.
  - reflexivity.
  - rewrite <- IH. f_equal. destruct c as [x|]; unfold exec; simpl.
    + now rewrite add_map_layer.
    + unfold bind, ret. rewrite _evict_map_layer.
      now destruct (_evict self) as [[ex|r] s1].
Qed.

End NeverRead.

(** X9. The layer never reads [content] or [timestamp]: rewriting these two
    fields of every entry, in the layer and in the calls, changes neither
    which calls raise nor which entries are kept and in which order.  The
    age of an entry plays no part in eviction. *)
Theorem X9_content_and_timestamp_never_read {C D : Type}
  (f : MemoryEntry C -> MemoryEntry D) :
  keeps_score f ->
  (forall (cs : list (layer_call C)) (self : MemoryLayer C),
      run_calls (map (map_call f) cs) (map_layer f self)
      = map_layer f (run_calls cs self)) /\
  (forall (x : MemoryEntry C) (self : MemoryLayer C),
      add (f x) (map_layer f self)
      = (fst (add x self), map_layer f (snd (add x self)))).
Proof.
  intros Hf. split.
  - intros cs self. now apply run_calls_map_layer.
  - intros x self. now apply add_map_layer.
Qed.

Lemma X9_content_and_timestamp_never_read_witness :
  (forall (cs : list (layer_call nat)) (self : MemoryLayer nat),
      run_calls
        (map (map_call (fun e => mkEntry tt (importance e) 0 (access_count e)))
             cs)
        (map_layer (fun e => mkEntry tt (importance e) 0 (access_count e)) self)
      = map_layer (fun e => mkEntry tt (importance e) 0 (access_count e))
          (run_calls cs self)) /\
  (forall (x : MemoryEntry nat) (self : MemoryLayer nat),
      add (mkEntry tt (importance x) 0 (access_count x))
          (map_layer (fun e => mkEntry tt (importance e) 0 (access_count e)) self)
      = (fst (add x self),
         map_layer (fun e => mkEntry tt (importance e) 0 (access_count e))
           (snd (add x self)))).
Proof.
  apply (X9_content_and_timestamp_never_read
           (fun e : MemoryEntry nat =>
              mkEntry tt (importance e) 0 (access_count e))).
  intros e. split; reflexivity.
Defined.

(* ================================================================== *)
(** * The prompt library *)

Lemma dict_lookup_setitem_same {V : Type} (k : str) (v : V) (d : dict V) :
  dict_lookup k (dict_setitem k v d) = Some v.
Proof.
  induction d as [|[k' v'] t IH]; simpl.
  - now rewrite String.eqb_refl.
  - destruct (String.eqb k' k) eqn:E; simpl; rewrite E; [reflexivity | exact IH].
Qed.

Lemma dict_lookup_setitem_other {V : Type} (k other : str) (v : V) (d : dict V) :
  other <> k ->
  dict_lookup other (dict_setitem k v d) = dict_lookup other d.
Proof.
  intros Hne. induction d as [|[k' v'] t IH]; simpl.
  - destruct (String.eqb k other) eqn:E; [|reflexivity].
    apply String.eqb_eq in E. congruence.
  - destruct (String.eqb k' k) eqn:E; simpl.
    + apply String.eqb_eq in E. subst k'.
      destruct (String.eqb k other) eqn:E'; [|reflexivity].
      apply String.eqb_eq in E'. congruence.
    + now rewrite IH.
Qed.

Lemma register_all_lookup (J : Type) {Template : Type} (name : str)
  (rs : list (str * Template)) (self : PromptLibrary Template) :
  dict_lookup name (templates (register_all J rs self)) =
    match last_registered name rs with
    | Some t => Some t
    | None => dict_lookup name (templates self)
    end.
Proof.
  revert self. induction rs as [|[n t] rest IH]; intros self; simpl.
  - reflexivity.
  - rewrite IH. destruct (last_registered name rest); [reflexivity|].
    simpl. destruct (String.eqb n name) eqn:E.
    + apply String.eqb_eq in E. subst n. apply dict_lookup_setitem_same.
    + apply dict_lookup_setitem_other. intros ->.
      now rewrite String.eqb_refl in E.
Qed.

Lemma last_registered_none {Template : Type} (name : str)
  (rs : list (str * Template)) :
  last_registered name rs = None <-> ~ In name (map fst rs).
Proof.
  induction rs as [|[n t] rest IH]; simpl.
  - split; [intros _ [] | reflexivity].
  - destruct (last_registered name rest) as [later|].
    + split; [discriminate|]. intros H. exfalso. apply H. right.
      destruct (in_dec String.string_dec name (map fst rest)) as [Hi|Hn];
        [exact Hi|].
      apply IH in Hn. discriminate.
    + destruct (String.eqb n name) eqn:E.
      * apply String.eqb_eq in E. split; [discriminate|].
        intros H. exfalso. apply H. now left.
      * split; [|reflexivity]. intros _ [H|H].
        -- subst n. now rewrite String.eqb_refl in E.
        -- now apply (proj1 IH eq_refl).
Qed.

Lemma last_registered_some {Template : Type} (name : str)
  (rs : list (str * Template)) (t : Template) :
  last_registered name rs = Some t -> In (name, t) rs.
Proof.
  induction rs as [|[n t'] rest IH]; simpl; [discriminate|].
  destruct (last_registered name rest) as [later|].
  - intros H. inversion H; subst. right. now apply IH.
  - destruct (String.eqb n name) eqn:E; [|discriminate].
    apply String.eqb_eq in E. intros H. inversion H; subst. now left.
Qed.

(** X10. What [register_template] stores, [get_template] returns: after
    registering [template] under [name], in any state of the library,
    [get_template(name)] returns that template, whether or not the name was
    taken before, and [get_template] of every other name does what it did
    before; [get_template] itself changes nothing. *)
Theorem X10_register_then_get {J Template : Type}
  (self : PromptLibrary Template) (name : str) (template : Template) :
  let after := snd (@register_template J Template name template self) in
  @get_template J Template name after = (inr template, after) /\
  (forall other, other <> name ->
     fst (@get_template J Template other after)
     = fst (@get_template J Template other self)) /\
  (forall other, snd (@get_template J Template other after) = after).
Proof.
  intros after. subst after.
  unfold get_template, register_template, pbind, pget, dict_getitem. simpl.
  split; [|split].
  - now rewrite dict_lookup_setitem_same.
  - intros other Hne. rewrite dict_lookup_setitem_other by exact Hne.
    now destruct (dict_lookup other (templates self)).
  - intros other.
    now destruct (dict_lookup other (dict_setitem name template (templates self))).
Qed.

(** X11. After any sequence of registrations on a new library,
    [get_template(name)] returns the template of the last registration under
    that name, and raises [KeyError(name)] exactly when nothing was
    registered under it; in both cases the library is left as it is. *)
Theorem X11_get_template_by_history {J Template : Type}
  (rs : list (str * Template)) (name : str) :
  @get_template J Template name (register_all J rs PromptLibrary_init) =
    (match last_registered name rs with
     | Some template => inr template
     | None => inl (KeyError name)
     end, register_all J rs PromptLibrary_init) /\
  (last_registered name rs = None <-> ~ In name (map fst rs)) /\
  (forall template,
      last_registered name rs = Some template -> In (name, template) rs).
Proof.
  split; [|split].
  - unfold get_template, pbind, pget, dict_getitem.
    rewrite (register_all_lookup J name rs PromptLibrary_init). simpl.
    now destruct (last_registered name rs).
  - apply last_registered_none.
  - intros template. apply last_registered_some.
Qed.

(* ================================================================== *)
(** * Prompt versions *)

Section PromptVersionFacts.

Context {JinjaError JinjaTemplate Value Metadata : Type}.
Variable Template : str -> JinjaError + JinjaTemplate.
Variable Template_render : JinjaTemplate -> dict Value -> JinjaError + str.

Local Abbreviation prompt_version := (@PromptVersion Value Metadata).

(** What [validate] does, by cases. *)
Lemma validate_eq (self : prompt_version) :
  validate Template Template_render self =
    match Template (template self) with
    | inl e => (inl (TemplateError e), self)
    | inr t =>
        match test_cases self with
        | [] => (inr true, self)
        | (inputs, _) :: _ =>
            if dict_contains "self"%string inputs
            then (inl (TypeError "self"%string), self)
            else
              match Template_render t inputs with
              | inl e => (inl (TemplateError e), self)
              | inr _ => (inl (AttributeError "_validate_output"%string), self)
              end
        end
    end.
Proof.
  unfold validate, pbind, pget, JinjaPromptTemplate_init.
  destruct (Template (template self)) as [e|t]; [reflexivity|].
  destruct (test_cases self) as [|[inputs expected] rest]; [reflexivity|].
  simpl. unfold pbind, render. simpl.
  destruct (dict_contains "self"%string inputs); [reflexivity|].
  now destruct (Template_render t inputs).
Qed.

End PromptVersionFacts.

(** X12. [validate] never returns [False], and returns [True] only when there
    is nothing to check: a call returns exactly when the template string is
    accepted by the template engine and the version has no test case, and
    then it returns [True]; the version is never changed. *)
Theorem X12_validate_returns_only_true
  {JinjaError JinjaTemplate Value Metadata : Type}
  (Template : str -> JinjaError + JinjaTemplate)
  (Template_render : JinjaTemplate -> dict Value -> JinjaError + str)
  (self : @PromptVersion Value Metadata) :
  snd (validate Template Template_render self) = self /\
  (forall b, fst (validate Template Template_render self) = inr b ->
     b = true /\ test_cases self = [] /\
     exists t, Template (template self) = inr t) /\
  (forall t, Template (template self) = inr t -> test_cases self = [] ->
     validate Template Template_render self = (inr true, self)).
Proof.
  rewrite validate_eq. split; [|split].
  - destruct (Template (template self)) as [e|t]; [reflexivity|].
    destruct (test_cases self) as [|[inputs expected] rest]; [reflexivity|].
    destruct (dict_contains "self"%string inputs); [reflexivity|].
    now destruct (Template_render t inputs).
  - intros b.
    destruct (Template (template self)) as [e|t]; [discriminate|].
    destruct (test_cases self) as [|[inputs expected] rest].
    + simpl. intros H. inversion H. eauto.
    + destruct (dict_contains "self"%string inputs); [discriminate|].
      now destruct (Template_render t inputs).
  - intros t -> ->. reflexivity.
Qed.

(** X13. Once a test case was added, [validate] cannot pass: after
    [add_test_case], on any version, it raises, and the version is left as
    it is.  The exception is decided by the template string and the first
    test case alone: the template engine's when it rejects the template
    string; else [TypeError] when the inputs of the first test case have a
    key named [self]; else the template engine's when rendering the first
    test case fails; else the [AttributeError] for [_validate_output], which
    the class does not define.  The later test cases are never rendered and
    do not change the outcome. *)
Theorem X13_validate_raises_with_test_cases
  {JinjaError JinjaTemplate Value Metadata : Type}
  (Template : str -> JinjaError + JinjaTemplate)
  (Template_render : JinjaTemplate -> dict Value -> JinjaError + str)
  (self : @PromptVersion Value Metadata)
  (inputs : dict Value) (expected_output : str) :
  let after := snd (@add_test_case JinjaError Value Metadata
                      inputs expected_output self) in
  test_cases after = test_cases self ++ [(inputs, expected_output)] /\
  exists first rest,
    test_cases after = first :: rest /\
    validate Template Template_render after =
      (inl match Template (template self) with
           | inl e => TemplateError e
           | inr t =>
               if dict_contains "self"%string (fst first)
               then TypeError "self"%string
               else
                 match Template_render t (fst first) with
                 | inl e => TemplateError e
                 | inr _ => AttributeError "_validate_output"%string
                 end
           end, after) /\
    (forall more,
        fst (validate Template Template_render
               {| version := version after;
                  template := template after;
                  metadata := metadata after;
                  test_cases := first :: more |})
        = fst (validate Template Template_render after)).
Proof.
  intros after. subst after. simpl.
  split; [reflexivity|].
  destruct (test_cases self ++ [(inputs, expected_output)])
    as [|[i x] rest] eqn:E.
  - now destruct (test_cases self).
  - exists (i, x), rest. split; [reflexivity|]. split.
    + rewrite validate_eq. simpl.
      destruct (Template (template self)) as [e|t]; [reflexivity|].
      destruct (dict_contains "self"%string i); [reflexivity|].
      now destruct (Template_render t i).
    + intros more. rewrite !validate_eq. simpl.
      destruct (Template (template self)) as [e|t]; [reflexivity|].
      destruct (dict_contains "self"%string i); [reflexivity|].
      now destruct (Template_render t i).
Qed.

(* ================================================================== *)
(** * Calls for different layers commute *)

Lemma memory_ext {Content : Type} (m m' : HierarchicalMemory Content) :
  (forall which, layer_of which m = layer_of which m') -> m = m'.
Proof.
  intros H. destruct m as [w s l], m' as [w' s' l'].
  pose proof (H Working) as Hw. pose proof (H ShortTerm) as Hs.
  pose proof (H LongTerm) as Hl. simpl in *. congruence.
Qed.

Lemma routed_app {Content : Type} (which : layer_id)
  (cs cs' : list (store_args Content)) :
  routed which (cs ++ cs') = routed which cs ++ routed which cs'.
Proof. unfold routed. now rewrite filter_app, map_app. Qed.

Lemma routed_swap {Content : Type} (which : layer_id)
  (a b : store_args Content) (post : list (store_args Content)) :
  route (arg_importance a) <> route (arg_importance b) ->
  routed which (a :: b :: post) = routed which (b :: a :: post).
Proof.
  intros Hne. unfold routed. simpl.
  destruct (layer_id_eqb (route (arg_importance a)) which) eqn:Ea,
           (layer_id_eqb (route (arg_importance b)) which) eqn:Eb;
    try reflexivity.
  apply layer_id_eqb_eq in Ea, Eb. congruence.
Qed.

(** X14. Two consecutive [store] calls whose importances select different
    layers can be swapped anywhere in a sequence of calls without changing
    the resulting store, in any starting state. *)
Theorem X14_stores_for_different_layers_commute {Content : Type}
  (m : HierarchicalMemory Content)
  (pre post : list (store_args Content)) (a b : store_args Content) :
  route (arg_importance a) <> route (arg_importance b) ->
  run_stores (pre ++ a :: b :: post) m = run_stores (pre ++ b :: a :: post) m.
Proof.
  intros Hne. apply memory_ext. intros which.
  rewrite !run_stores_layer, !routed_app.
  now rewrite (routed_swap which a b post Hne).
Qed.

Lemma X14_stores_for_different_layers_commute_witness :
  run_stores ([mkStore 1%nat PyFloat.lit_0_5 0]
              ++ mkStore 2%nat PyFloat.lit_0_9 1
                 :: mkStore 3%nat PyFloat.lit_0_8 2 :: []) empty_memory
  = run_stores ([mkStore 1%nat PyFloat.lit_0_5 0]
                ++ mkStore 3%nat PyFloat.lit_0_8 2
                   :: mkStore 2%nat PyFloat.lit_0_9 1 :: []) empty_memory.
Proof.
  apply (X14_stores_for_different_layers_commute empty_memory
           [mkStore 1%nat PyFloat.lit_0_5 0] []
           (mkStore 2%nat PyFloat.lit_0_9 1)
           (mkStore 3%nat PyFloat.lit_0_8 2)).
  discriminate.
Defined.
